(** * firecrest_wflow._orm: the persistent entities of the workflow engine

    A shallow embedding of [src/firecrest_wflow/_orm.py]:

<<
    Client
        |_ Code
           |_ CalcJob <-> Processing
                |_ DataNode
>>

    Each mapped class becomes a record whose fields are the mapped columns,
    each table a finite map from primary key to row, and each declared
    constraint (primary key, [unique=True], [UniqueConstraint],
    [ForeignKey], relationship cascade) a check made by the operation that
    writes the table. *)

From Stdlib Require Import ZArith List Ascii String Bool Lia.
From stdpp Require Import gmap strings list fin_maps pretty.

Local Open Scope string_scope.
Local Open Scope Z_scope.

(** ** The name pool *)

(** [NAMES]: the tuple at the end of the module, in source order. *)
Definition NAMES : list string :=
  [ "digital_dynamo"; "futuristic_fusion"; "optical_odyssey"; "radiant_rocket";
    "super_sonic"; "crystal_cruiser"; "creative_cyber"; "efficient_explorer";
    "virtual_venture"; "nifty_navigator"; "glorious_galaxy";
    "optimized_operations"; "astonishing_adventure"; "elegant_evolution";
    "smooth_symphony"; "powerful_prodigy"; "virtual_visionary";
    "sleek_sentinel"; "energetic_explorer"; "optimistic_odyssey";
    "fantastic_frontier"; "digital_dominion"; "efficient_evolution";
    "virtual_voyager"; "nimble_navigator"; "glorious_gateway";
    "optimized_operations"; "astonishing_array"; "elegant_enterprise";
    "sophisticated_symphony"; "perfect_prodigy"; "virtual_victory";
    "speedy_sentinel"; "energetic_enterprise"; "optimistic_optimizer";
    "futuristic_fortune"; "dynamic_dynamo"; "flawless_fusion";
    "optimal_odyssey"; "radiant_realm"; "superior_symphony";
    "crystal_crusader"; "creative_computing"; "efficient_exec";
    "virtual_vision"; "nifty_network"; "glorious_grid";
    "optimized_optimizer"; "astonishing_accelerator"; "elegant_explorer" ].

(** ** Column types *)

(** [Enum("posix", "windows")] of [Client.fsystem]. *)
Inductive fsystem_t : Type := posix | windows.

(** The [Enum] of [Processing.step], in declaration order. *)
Inductive step_t : Type :=
  | created | uploading | submitting | running | retrieving | finalised.

#[global] Instance fsystem_eq_dec : EqDecision fsystem_t.
Proof. solve_decision. Defined.

#[global] Instance step_eq_dec : EqDecision step_t.
Proof. solve_decision. Defined.

(** A JSON column is kept opaque: the module never looks inside one. *)
#[warnings="-register-all"]
Inductive json : Type :=
  | JNull
  | JStr (s : string)
  | JNum (n : Z)
  | JList (l : list json)
  | JDict (d : list (string * json)).

(** ** Mapped classes

    The primary key is [None] until the database has set it. *)

Record Client : Type := mkClient {
  client_pk_ : option Z;
  client_label : string;
  client_url : string;
  client_id : string;
  token_uri : string;
  client_secret : string;
  machine_name : string;
  work_dir : string;
  fsystem : fsystem_t;
  small_file_size_mb : Z
}.

Record Code : Type := mkCode {
  code_pk_ : option Z;
  code_label : string;
  client_pk : Z;
  script : string;
  upload_paths : list (string * option string)
}.

Record CalcJob : Type := mkCalcJob {
  calcjob_pk_ : option Z;
  calcjob_label : string;
  uuid : string;
  code_pk : Z;
  parameters : list (string * json);
  upload : list (string * option string);
  download_globs : list string
}.

Record Processing : Type := mkProcessing {
  processing_pk_ : option Z;
  calcjob_pk : Z;
  step : step_t;
  job_id : option string;
  exception : option string
}.

Record DataNode : Type := mkDataNode {
  datanode_pk_ : option Z;
  attributes : list (string * json);
  creator_pk : Z
}.

(** ** Base: identity, equality and hashing *)

Inductive class_t : Type :=
  | ClientCls | CodeCls | CalcJobCls | ProcessingCls | DataNodeCls.

#[global] Instance class_eq_dec : EqDecision class_t.
Proof. solve_decision. Defined.

(** An instance of one of the five mapped classes. *)
Inductive entity : Type :=
  | EClient (c : Client)
  | ECode (c : Code)
  | ECalcJob (c : CalcJob)
  | EProcessing (p : Processing)
  | EDataNode (d : DataNode).

(** [other: Any]: the right operand of [==] need not be a mapped object. *)
Inductive pyobject : Type :=
  | Obj (e : entity)
  | Foreign.

(** [self.__class__] *)
Definition class_of (e : entity) : class_t :=
  match e with
  | EClient _ => ClientCls
  | ECode _ => CodeCls
  | ECalcJob _ => CalcJobCls
  | EProcessing _ => ProcessingCls
  | EDataNode _ => DataNodeCls
  end.

(** [self.pk] *)
Definition pk (e : entity) : option Z :=
  match e with
  | EClient c => client_pk_ c
  | ECode c => code_pk_ c
  | ECalcJob c => calcjob_pk_ c
  | EProcessing p => processing_pk_ p
  | EDataNode d => datanode_pk_ d
  end.

(** [isinstance(other, cls)]. The five classes derive from [Base] directly
    and none derives from another, so an object is an instance of [cls]
    exactly when [cls] is its class. *)
Definition isinstance (other : pyobject) (cls : class_t) : bool :=
  match other with
  | Obj e => bool_decide (class_of e = cls)
  | Foreign => false
  end.

(** [Base.__eq__] *)
Definition __eq__ (self : entity) (other : pyobject) : bool :=
  if negb (isinstance other (class_of self)) then false
  else match other with
       | Obj e => bool_decide (pk self = pk e)
       | Foreign => false
       end.

(** [hash(n)] of a Python [int] on a 64-bit build: reduction modulo the
    Mersenne prime [2^61 - 1] with the sign kept, and [-1] (the error
    value of the C slot) replaced by [-2]. *)
Definition hash_int (n : Z) : Z :=
  let h := Z.sgn n * (Z.abs n mod (2 ^ 61 - 1)) in
  if h =? -1 then -2 else h.

Section Hashing.
(** [hash(None)] is a constant of the interpreter. *)
Variable hash_None : Z.

(** [hash(x)] for the values a primary key takes. *)
Definition hash (x : option Z) : Z :=
  match x with
  | Some n => hash_int n
  | None => hash_None
  end.

(** [Base.__hash__] *)
Definition __hash__ (self : entity) : Z := hash (pk self).
End Hashing.

(** ** Processing.step: attribute assignment *)

(** [status.step = s]. The column is a plain mapped attribute: assignment
    stores the value and touches no other column. *)
Definition set_step (self : Processing) (s : step_t) : Processing :=
  {| processing_pk_ := processing_pk_ self;
     calcjob_pk := calcjob_pk self;
     step := s;
     job_id := job_id self;
     exception := exception self |}.

(** [status.job_id = j] *)
Definition set_job_id (self : Processing) (j : option string) : Processing :=
  {| processing_pk_ := processing_pk_ self;
     calcjob_pk := calcjob_pk self;
     step := step self;
     job_id := j;
     exception := exception self |}.

(** [status.exception = e] *)
Definition set_exception (self : Processing) (e : option string) : Processing :=
  {| processing_pk_ := processing_pk_ self;
     calcjob_pk := calcjob_pk self;
     step := step self;
     job_id := job_id self;
     exception := e |}.

(** ** pathlib: pure paths

    [Client.work_path] and [CalcJob.remote_path] build [PurePosixPath] and
    [PureWindowsPath] values. The part of the standard library they go
    through is written out here after CPython 3.11's [pathlib]: a flavour
    ([sep], [altsep], [splitroot], [casefold]), [parse_parts] for the one
    string the constructor and the [/] operator receive,
    [join_parsed_parts], and [__str__]. *)
Module pathlib.

(** [s.lstrip(sep)] *)
Fixpoint lstrip (sep : ascii) (s : string) : string :=
  match s with
  | EmptyString => EmptyString
  | String c s' => if Ascii.eqb c sep then lstrip sep s' else s
  end.

(** [s.split(sep)] *)
Fixpoint split (sep : ascii) (s : string) : list string :=
  match s with
  | EmptyString => [EmptyString]
  | String c s' =>
      if Ascii.eqb c sep then EmptyString :: split sep s'
      else match split sep s' with
           | x :: xs => String c x :: xs
           | [] => [String c EmptyString]
           end
  end.

(** [sep.join(parts)] *)
Fixpoint join (sep : ascii) (parts : list string) : string :=
  match parts with
  | [] => EmptyString
  | [x] => x
  | x :: rest => String.append x (String sep (join sep rest))
  end.

(** [s.replace(a, b)] for single characters *)
Fixpoint replace (a b : ascii) (s : string) : string :=
  match s with
  | EmptyString => EmptyString
  | String c s' => String (if Ascii.eqb c a then b else c) (replace a b s')
  end.

(** [s[:n]] and [s[n:]] *)
Fixpoint take (n : nat) (s : string) : string :=
  match n, s with
  | S k, String c s' => String c (take k s')
  | _, _ => EmptyString
  end.

Fixpoint drop (n : nat) (s : string) : string :=
  match n, s with
  | S k, String _ s' => drop k s'
  | _, _ => s
  end.

(** [s.startswith(p)] *)
Fixpoint startswith (p s : string) : bool :=
  match p, s with
  | EmptyString, _ => true
  | String a p', String b s' => Ascii.eqb a b && startswith p' s'
  | String _ _, EmptyString => false
  end.

(** [s.find(sep, start)], with [None] for [-1] *)
Fixpoint find (sep : ascii) (start : nat) (s : string) : option nat :=
  match s with
  | EmptyString => None
  | String c s' =>
      match start with
      | O => if Ascii.eqb c sep then Some O else S <$> find sep O s'
      | S k => S <$> find sep k s'
      end
  end.

(** [c.lower()] on ASCII letters, and [s.lower()] *)
Definition lower_ascii (c : ascii) : ascii :=
  let n := nat_of_ascii c in
  if (Nat.leb 65 n && Nat.leb n 90)%bool then ascii_of_nat (n + 32) else c.

Fixpoint lower (s : string) : string :=
  match s with
  | EmptyString => EmptyString
  | String c s' => String (lower_ascii c) (lower s')
  end.

(** [c in drive_letters]: the ASCII letters of either case *)
Definition is_drive_letter (c : ascii) : bool :=
  let n := nat_of_ascii c in
  ((Nat.leb 65 n && Nat.leb n 90) || (Nat.leb 97 n && Nat.leb n 122))%bool.

Definition nonempty (s : string) : bool :=
  match s with EmptyString => false | String _ _ => true end.

Definition slash : ascii := "/"%char.
Definition backslash : ascii := "\"%char.
Definition colon : ascii := ":"%char.

(** *** Flavours *)

Record Flavour : Type := mkFlavour {
  sep : ascii;
  altsep : option ascii;
  splitroot : string -> string * string * string;
  casefold : string -> string
}.

(** [_PosixFlavour.splitroot] *)
Definition posix_splitroot (part : string) : string * string * string :=
  match part with
  | String c _ =>
      if Ascii.eqb c slash then
        let stripped_part := lstrip slash part in
        if Nat.eqb (String.length part - String.length stripped_part) 2
        then (EmptyString, String slash (String slash EmptyString), stripped_part)
        else (EmptyString, String slash EmptyString, stripped_part)
      else (EmptyString, EmptyString, part)
  | EmptyString => (EmptyString, EmptyString, part)
  end.

(** [_WindowsFlavour._split_extended_path] *)
Definition _split_extended_path (s : string) : string * string :=
  if startswith "\\?\" s then
    let prefix := take 4 s in
    let s := drop 4 s in
    if startswith "UNC\" s
    then (String.append prefix (take 3 s), String backslash (drop 3 s))
    else (prefix, s)
  else (EmptyString, s).

(** [s[i:i+1] == c], false where the slice is empty *)
Definition char_at_is (i : nat) (c : ascii) (s : string) : bool :=
  match String.get i s with
  | Some d => Ascii.eqb d c
  | None => false
  end.

(** [_WindowsFlavour.splitroot] *)
Definition windows_splitroot (part0 : string) : string * string * string :=
  let sep := backslash in
  let '(prefix, part) :=
    if (char_at_is 1 sep part0 && char_at_is 0 sep part0)%bool
    then _split_extended_path part0
    else (EmptyString, part0) in
  let first_is_sep := char_at_is 0 sep part in
  let second_is_sep := char_at_is 1 sep part in
  let third_is_sep := char_at_is 2 sep part in
  let unc :=
    if (second_is_sep && first_is_sep && negb third_is_sep)%bool then
      match find sep 2 part with
      | Some index =>
          let index2 := find sep (index + 1) part in
          if bool_decide (index2 = Some (index + 1)%nat) then None
          else
            let index2 := default (String.length part) index2 in
            Some (if nonempty prefix
                  then (String.append prefix (drop 1 (take index2 part)),
                        String sep EmptyString, drop (index2 + 1) part)
                  else (take index2 part,
                        String sep EmptyString, drop (index2 + 1) part))
      | None => None
      end
    else None in
  match unc with
  | Some r => r
  | None =>
      let has_drive :=
        (char_at_is 1 colon part
         && match String.get 0 part with
            | Some c => is_drive_letter c
            | None => false
            end)%bool in
      let drv := if has_drive then take 2 part else EmptyString in
      let part' := if has_drive then drop 2 part else part in
      let first_is_sep' := if has_drive then third_is_sep else first_is_sep in
      let root := if first_is_sep' then String sep EmptyString else EmptyString in
      let part'' := if first_is_sep' then lstrip sep part' else part' in
      (String.append prefix drv, root, part'')
  end.

Definition _posix_flavour : Flavour :=
  mkFlavour slash None posix_splitroot (fun s => s).

Definition _windows_flavour : Flavour :=
  mkFlavour backslash (Some slash) windows_splitroot lower.

(** *** Parsing and joining *)

(** A part that survives parsing: not empty and not ["."]. *)
Definition kept (x : string) : bool :=
  (nonempty x && negb (String.eqb x "."))%bool.

(** [parse_parts] for a single argument: the separators are normalised,
    the anchor is split off, the rest is cut at the separator, empty and
    ["."] components are dropped, and the anchor (when there is one)
    becomes the first part. *)
Definition parse_parts (f : Flavour) (part : string)
  : string * string * list string :=
  if negb (nonempty part) then (EmptyString, EmptyString, [])
  else
    let part := match altsep f with
                | Some a => replace a (sep f) part
                | None => part
                end in
    let '(drv, root, rel) := splitroot f part in
    let parsed := List.filter kept (split (sep f) rel) in
    if (nonempty drv || nonempty root)%bool
    then (drv, root, String.append drv root :: parsed)
    else (drv, root, parsed).

(** [join_parsed_parts] *)
Definition join_parsed_parts (f : Flavour)
    (drv root : string) (parts : list string)
    (drv2 root2 : string) (parts2 : list string)
  : string * string * list string :=
  if nonempty root2 then
    if (negb (nonempty drv2) && nonempty drv)%bool
    then (drv, root2, String.append drv root2 :: List.tl parts2)
    else (drv2, root2, parts2)
  else if nonempty drv2 then
    if (String.eqb drv2 drv
        || String.eqb (casefold f drv2) (casefold f drv))%bool
    then (drv, root, (parts ++ List.tl parts2)%list)
    else (drv2, root2, parts2)
  else (drv, root, (parts ++ parts2)%list).

(** *** Pure paths *)

Inductive flavour_t : Type := PosixFlavour | WindowsFlavour.

Definition flavour_of (k : flavour_t) : Flavour :=
  match k with
  | PosixFlavour => _posix_flavour
  | WindowsFlavour => _windows_flavour
  end.

Record PurePath : Type := mkPurePath {
  _flavour : flavour_t;
  _drv : string;
  _root : string;
  _parts : list string
}.

Definition _from_parts (k : flavour_t) (arg : string) : PurePath :=
  let '(drv, root, parts) := parse_parts (flavour_of k) arg in
  mkPurePath k drv root parts.

(** [PurePosixPath(arg)] and [PureWindowsPath(arg)] *)
Definition PurePosixPath (arg : string) : PurePath :=
  _from_parts PosixFlavour arg.

Definition PureWindowsPath (arg : string) : PurePath :=
  _from_parts WindowsFlavour arg.

(** [self / key], that is [_make_child((key,))] *)
Definition truediv (self : PurePath) (key : string) : PurePath :=
  let f := flavour_of (_flavour self) in
  let '(drv2, root2, parts2) := parse_parts f key in
  let '(drv, root, parts) :=
    join_parsed_parts f (_drv self) (_root self) (_parts self)
                      drv2 root2 parts2 in
  mkPurePath (_flavour self) drv root parts.

(** [str(self)] *)
Definition str (self : PurePath) : string :=
  let f := flavour_of (_flavour self) in
  let s :=
    if (nonempty (_drv self) || nonempty (_root self))%bool
    then String.append (_drv self)
           (String.append (_root self) (join (sep f) (List.tl (_parts self))))
    else join (sep f) (_parts self) in
  if nonempty s then s else ".".
End pathlib.

Notation "p // key" := (pathlib.truediv p key) (at level 40, left associativity).

(** ** Client.work_path *)

(** The [work_path] property: the working directory read under the
    profile's file system. *)
Definition work_path (self : Client) : pathlib.PurePath :=
  if bool_decide (fsystem self = posix)
  then pathlib.PurePosixPath (work_dir self)
  else pathlib.PureWindowsPath (work_dir self).

(** ** Constructor arguments

    What [Client(...)], [Code(...)], [CalcJob(...)], [Processing(...)] and
    [DataNode(...)] are given; a column with a default may be left out.
    The records [NewClient.t] to [NewDataNode.t] hold column values, the
    owner being named by its key, as in [Code(client_pk=1, ...)] or
    [Processing(calcjob_pk=1)]; for a code, a calcjob and an output,
    passing the stored owner itself ([client=], [code=], [creator=])
    sets that key. The constructor of a calcjob also
    accepts its relationships: [status=] takes a new status and
    [outputs=] a list of new outputs, given as [NewStatus.t] and
    [NewOutput.t], which have no owner column of their own because the
    owner is the calcjob under construction. *)

Module NewClient.
Record t : Type := mk {
  label : option string;
  client_url : string;
  client_id : string;
  token_uri : string;
  client_secret : string;
  machine_name : string;
  work_dir : string;
  fsystem : option fsystem_t;
  small_file_size_mb : option Z
}.
End NewClient.

Module NewCode.
Record t : Type := mk {
  label : option string;
  client_pk : Z;
  script : string;
  upload_paths : option (list (string * option string))
}.
End NewCode.

Module NewCalcJob.
Record t : Type := mk {
  label : option string;
  uuid : option string;
  code_pk : Z;
  parameters : option (list (string * json));
  upload : option (list (string * option string));
  download_globs : option (list string)
}.
End NewCalcJob.

Module NewProcessing.
Record t : Type := mk {
  calcjob_pk : Z;
  step : option step_t;
  job_id : option string;
  exception : option string
}.
End NewProcessing.

Module NewDataNode.
Record t : Type := mk {
  attributes : option (list (string * json));
  creator_pk : Z
}.
End NewDataNode.

(** [Processing(step=..., job_id=..., exception=...)] passed as [status=]. *)
Module NewStatus.
Record t : Type := mk {
  step : option step_t;
  job_id : option string;
  exception : option string
}.
End NewStatus.

(** [DataNode(attributes=...)] passed in [outputs=]. *)
Module NewOutput.
Record t : Type := mk {
  attributes : option (list (string * json))
}.
End NewOutput.

(** ** The database *)

Record Store : Type := mkStore {
  clients : gmap Z Client;
  codes : gmap Z Code;
  calcjobs : gmap Z CalcJob;
  statuses : gmap Z Processing;
  data : gmap Z DataNode
}.

Definition empty_store : Store := mkStore ∅ ∅ ∅ ∅ ∅.

Inductive constraint_t : Type := UniqueConstraint | ForeignKeyConstraint.

(** What a write can raise: [IndexError] from [random.choice], the
    database's [IntegrityError] for a violated constraint, and the
    session's [InvalidRequestError] for deleting an object that is not
    stored. *)
Inductive exn : Type :=
  | IndexError
  | IntegrityError (c : constraint_t)
  | InvalidRequestError.

(** [pk] "set by the database": one more than the largest key in the
    table, [1] in an empty table. *)
Definition next_pk {A : Type} (m : gmap Z A) : Z :=
  1 + map_fold (fun k _ acc => Z.max k acc) 0 m.

(** [unique=True] on [client.label] *)
Definition client_label_taken (db : Store) (l : string) : bool :=
  bool_decide (map_Exists (fun _ c => client_label c = l) (clients db)).

(** [UniqueConstraint("client_pk", "label")] on [code] *)
Definition code_label_taken (db : Store) (cpk : Z) (l : string) : bool :=
  bool_decide
    (map_Exists (fun _ c => client_pk c = cpk /\ code_label c = l) (codes db)).

(** [relationship("Processing", ...)] and [relationship("DataNode", ...)]
    on [CalcJob]: the rows whose foreign key names the calcjob. *)
Definition status_of (db : Store) (k : Z) : gmap Z Processing :=
  filter (fun kv => calcjob_pk kv.2 = k) (statuses db).

Definition outputs_of (db : Store) (k : Z) : gmap Z DataNode :=
  filter (fun kv => creator_pk kv.2 = k) (data db).

(** [CalcJob.remote_path]: [self.code] and [.client] follow the foreign
    keys; [None] when a row on the way is missing. *)
Definition remote_path (db : Store) (self : CalcJob) : option pathlib.PurePath :=
  code ← codes db !! code_pk self;
  client ← clients db !! client_pk code;
  Some (work_path client // "workflows" // uuid self).

Section Session.
(** The generator state, [Random._randbelow] and [uuid4] are the
    interpreter's. *)
Variable rng : Type.
Variable _randbelow : nat -> rng -> nat * rng.
Variable uuid4 : rng -> string * rng.

(** [random.choice(seq)]; [None] stands for the [IndexError] raised on
    an empty sequence. *)
Definition choice {A : Type} (seq : list A) (g : rng) : option A * rng :=
  match seq with
  | [] => (None, g)
  | _ :: _ =>
      let '(k, g') := _randbelow (length seq) g in
      (seq !! k, g')
  end.

(** The column default [lambda: random.choice(NAMES)], used when no
    label was given. *)
Definition label_or_default (label : option string) (g : rng)
  : option string * rng :=
  match label with
  | Some l => (Some l, g)
  | None => choice NAMES g
  end.

(** The result of a write: what was raised or the new primary key, the
    database afterwards, and the generator afterwards. *)
Definition write_result : Type := (exn + Z) * Store * rng.

(** [session.add(Client(...)); session.commit()] *)
Definition add_client (new : NewClient.t) (db : Store) (g : rng)
  : write_result :=
  let '(ol, g') := label_or_default (NewClient.label new) g in
  match ol with
  | None => (inl IndexError, db, g')
  | Some l =>
      if client_label_taken db l
      then (inl (IntegrityError UniqueConstraint), db, g')
      else
        let k := next_pk (clients db) in
        let row :=
          {| client_pk_ := Some k;
             client_label := l;
             client_url := NewClient.client_url new;
             client_id := NewClient.client_id new;
             token_uri := NewClient.token_uri new;
             client_secret := NewClient.client_secret new;
             machine_name := NewClient.machine_name new;
             work_dir := NewClient.work_dir new;
             fsystem := default posix (NewClient.fsystem new);
             small_file_size_mb :=
               default 5 (NewClient.small_file_size_mb new) |} in
        (inr k,
         mkStore (<[k := row]> (clients db)) (codes db) (calcjobs db)
                 (statuses db) (data db),
         g')
  end.

(** [session.add(Code(...)); session.commit()] *)
Definition add_code (new : NewCode.t) (db : Store) (g : rng)
  : write_result :=
  let '(ol, g') := label_or_default (NewCode.label new) g in
  match ol with
  | None => (inl IndexError, db, g')
  | Some l =>
      if code_label_taken db (NewCode.client_pk new) l
      then (inl (IntegrityError UniqueConstraint), db, g')
      else if bool_decide (clients db !! NewCode.client_pk new = None)
      then (inl (IntegrityError ForeignKeyConstraint), db, g')
      else
        let k := next_pk (codes db) in
        let row :=
          {| code_pk_ := Some k;
             code_label := l;
             client_pk := NewCode.client_pk new;
             script := NewCode.script new;
             upload_paths := default [] (NewCode.upload_paths new) |} in
        (inr k,
         mkStore (clients db) (<[k := row]> (codes db)) (calcjobs db)
                 (statuses db) (data db),
         g')
  end.

(** [session.add(CalcJob(...)); session.commit()] *)
Definition add_calcjob (new : NewCalcJob.t) (db : Store) (g : rng)
  : write_result :=
  let '(u, g') := match NewCalcJob.uuid new with
                  | Some u => (u, g)
                  | None => uuid4 g
                  end in
  if bool_decide (codes db !! NewCalcJob.code_pk new = None)
  then (inl (IntegrityError ForeignKeyConstraint), db, g')
  else
    let k := next_pk (calcjobs db) in
    let row :=
      {| calcjob_pk_ := Some k;
         calcjob_label := default "" (NewCalcJob.label new);
         uuid := u;
         code_pk := NewCalcJob.code_pk new;
         parameters := default [] (NewCalcJob.parameters new);
         upload := default [] (NewCalcJob.upload new);
         download_globs := default [] (NewCalcJob.download_globs new) |} in
    (inr k,
     mkStore (clients db) (codes db) (<[k := row]> (calcjobs db))
             (statuses db) (data db),
     g').

(** [session.add(Processing(...)); session.commit()] *)
Definition add_processing (new : NewProcessing.t) (db : Store) (g : rng)
  : write_result :=
  if bool_decide (calcjobs db !! NewProcessing.calcjob_pk new = None)
  then (inl (IntegrityError ForeignKeyConstraint), db, g)
  else
    let k := next_pk (statuses db) in
    let row :=
      {| processing_pk_ := Some k;
         calcjob_pk := NewProcessing.calcjob_pk new;
         step := default created (NewProcessing.step new);
         job_id := NewProcessing.job_id new;
         exception := NewProcessing.exception new |} in
    (inr k,
     mkStore (clients db) (codes db) (calcjobs db)
             (<[k := row]> (statuses db)) (data db),
     g).

(** [session.add(DataNode(...)); session.commit()] *)
Definition add_datanode (new : NewDataNode.t) (db : Store) (g : rng)
  : write_result :=
  if bool_decide (calcjobs db !! NewDataNode.creator_pk new = None)
  then (inl (IntegrityError ForeignKeyConstraint), db, g)
  else
    let k := next_pk (data db) in
    let row :=
      {| datanode_pk_ := Some k;
         attributes := default [] (NewDataNode.attributes new);
         creator_pk := NewDataNode.creator_pk new |} in
    (inr k,
     mkStore (clients db) (codes db) (calcjobs db) (statuses db)
             (<[k := row]> (data db)),
     g).

(** [session.add(CalcJob(..., status=s, outputs=[o1, ...]));
    session.commit()]. [cascade="all"] on the two relationships includes
    save-update, so the status and the outputs passed to the constructor
    are stored in the same commit: the calcjob first, then each child
    with the calcjob's new key as its foreign key. A child's insert
    cannot be refused (its only constraint is that foreign key), so the
    commit fails exactly when the calcjob's own insert does, and then
    nothing is stored. *)
Definition add_calcjob_with (new : NewCalcJob.t)
    (status : option NewStatus.t) (outputs : list NewOutput.t)
    (db : Store) (g : rng) : write_result :=
  match add_calcjob new db g with
  | (inl e, _, g') => (inl e, db, g')
  | (inr k, db1, g') =>
      let db2 :=
        match status with
        | None => db1
        | Some s =>
            (add_processing
               (NewProcessing.mk k (NewStatus.step s) (NewStatus.job_id s)
                                 (NewStatus.exception s))
               db1 g').1.2
        end in
      let db3 :=
        foldl (fun d o =>
                 (add_datanode (NewDataNode.mk (NewOutput.attributes o) k)
                               d g').1.2)
              db2 outputs in
      (inr k, db3, g')
  end.
End Session.

(** The database a successful deletion of the calcjob [k] leaves: the
    calcjob, the status loaded through [status] and the outputs loaded
    through [outputs] are gone. *)
Definition without_calcjob (k : Z) (db : Store) : Store :=
  mkStore (clients db) (codes db) (delete k (calcjobs db))
          (filter (fun kv => calcjob_pk kv.2 <> k) (statuses db))
          (filter (fun kv => creator_pk kv.2 <> k) (data db)).

(** [session.delete(calcjob); session.commit()] for the calcjob with key
    [k]. An object that is not stored cannot be deleted: the session
    raises [InvalidRequestError]. Otherwise [cascade="all, delete-orphan"]
    deletes what the two relationships load: [outputs] is a list and loads
    every output of the calcjob; [status] is a scalar and loads one status
    row. The foreign key [calcjob_status.calcjob_pk] has no [ondelete] and
    no unique constraint, so when a second status row references the
    calcjob the cascade does not reach it, the [DELETE] of the calcjob is
    refused by that foreign key, and the failed commit leaves the
    database as it was. With at most one status row, the calcjob, its
    status and its outputs are deleted. *)
Definition delete_calcjob (k : Z) (db : Store) : (exn + unit) * Store :=
  match calcjobs db !! k with
  | None => (inl InvalidRequestError, db)
  | Some _ =>
      if decide (size (status_of db k) <= 1)%nat
      then (inr tt, without_calcjob k db)
      else (inl (IntegrityError ForeignKeyConstraint), db)
  end.

(** Committing an attribute assignment on the status row [k]. *)
Definition update_status (f : Processing -> Processing) (k : Z) (db : Store)
  : Store :=
  mkStore (clients db) (codes db) (calcjobs db) (alter f k (statuses db))
          (data db).

(** Dropping a single status or output row ([delete-orphan], or an explicit
    [session.delete]); such a row has no children. *)
Definition delete_status (k : Z) (db : Store) : Store :=
  mkStore (clients db) (codes db) (calcjobs db) (delete k (statuses db))
          (data db).

Definition delete_datanode (k : Z) (db : Store) : Store :=
  mkStore (clients db) (codes db) (calcjobs db) (statuses db)
          (delete k (data db)).

Section Reachable.
Variable rng : Type.
Variable _randbelow : nat -> rng -> nat * rng.
Variable uuid4 : rng -> string * rng.

(** The databases a session can bring about, starting from the empty
    one, with the writes above. An update of a status row assigns to its
    [step], [job_id] or [exception] and leaves its foreign key alone. *)
Inductive reachable : Store -> Prop :=
  | reach_empty : reachable empty_store
  | reach_add_client new db g :
      reachable db -> reachable (add_client rng _randbelow new db g).1.2
  | reach_add_code new db g :
      reachable db -> reachable (add_code rng _randbelow new db g).1.2
  | reach_add_calcjob new db g :
      reachable db -> reachable (add_calcjob rng uuid4 new db g).1.2
  | reach_add_processing new db g :
      reachable db -> reachable (add_processing rng new db g).1.2
  | reach_add_datanode new db g :
      reachable db -> reachable (add_datanode rng new db g).1.2
  | reach_delete_calcjob k db :
      reachable db -> reachable (delete_calcjob k db).2
  | reach_delete_status k db :
      reachable db -> reachable (delete_status k db)
  | reach_delete_datanode k db :
      reachable db -> reachable (delete_datanode k db)
  | reach_update_status f k db :
      (forall p, calcjob_pk (f p) = calcjob_pk p) ->
      reachable db -> reachable (update_status f k db).
End Reachable.

(** ** Client.client: the cached gateway handle *)

Section Gateway.
(** The [firecrest] package is outside the module: its handle and
    authorisation types, what the constructor may raise, and the outside
    world the constructor acts in. *)
Variable Firecrest : Type.
Variable Auth : Type.
Variable error : Type.
Variable world : Type.
Variable ClientCredentialsAuth : string -> string -> string -> Auth.
Variable new_Firecrest :
  string -> Auth -> world -> (error + Firecrest) * world.

(** A [Client] instance: its mapped columns, and the [_client] attribute
    that is absent ([None]) until the property has set it. *)
Record ClientObject : Type := mkClientObject {
  columns : Client;
  _client : option Firecrest
}.

(** The [client] property. *)
Definition client (self : ClientObject) (w : world)
  : (error + Firecrest) * ClientObject * world :=
  match _client self with
  | Some h => (inr h, self, w)
  | None =>
      let auth :=
        ClientCredentialsAuth (client_id (columns self))
                              (client_secret (columns self))
                              (token_uri (columns self)) in
      match new_Firecrest (client_url (columns self)) auth w with
      | (inr h, w') => (inr h, mkClientObject (columns self) (Some h), w')
      | (inl e, w') => (inl e, self, w')
      end
  end.
End Gateway.

(** ** Rendering a script *)

Module Template.
Inductive chunk : Type :=
  | Text (s : string)
  | Ref (expr : string).

Inductive TemplateRenderError : Type := MkTemplateRenderError.

(** What a placeholder can be resolved against: the object's own text
    and its fields. *)
Record binding : Type := mkBinding {
  repr : string;
  fields : gmap string string
}.

Definition snoc (s : string) (c : ascii) : string :=
  String.append s (String c EmptyString).

(** Modelled from the spec: the scanner of the script renderer, which
    the module does not contain (it only declares the [script] column
    and names its placeholders). Text between [{{] and [}}] is a
    reference, everything else is copied. *)
Fixpoint scan (inside : bool) (acc : string) (s : string) : list chunk :=
  match s with
  | EmptyString =>
      if inside then [Text (String.append "{{" acc)] else [Text acc]
  | String c rest =>
      match rest with
      | String d rest' =>
          if inside then
            if (Ascii.eqb c "}" && Ascii.eqb d "}")%bool
            then Ref acc :: scan false EmptyString rest'
            else scan true (snoc acc c) rest
          else
            if (Ascii.eqb c "{" && Ascii.eqb d "{")%bool
            then Text acc :: scan true EmptyString rest'
            else scan false (snoc acc c) rest
      | EmptyString => scan inside (snoc acc c) rest
      end
  end.

Definition strip (s : string) : string :=
  let l := pathlib.lstrip " " s in
  String.rev (pathlib.lstrip " " (String.rev l)).

(** Modelled from the spec: resolving one reference of the script
    renderer, which the module does not contain. [name] is the binding
    itself, [name.field] a field of it; anything that does not exist has
    no value. *)
Definition resolve (b : gmap string binding) (expr : string)
  : option string :=
  match pathlib.split "." (strip expr) with
  | [name] => repr <$> b !! name
  | [name; field] => o ← b !! name; fields o !! field
  | _ => None
  end.

Fixpoint render_chunks (b : gmap string binding) (cs : list chunk)
  : option string :=
  match cs with
  | [] => Some EmptyString
  | Text t :: rest => String.append t <$> render_chunks b rest
  | Ref e :: rest =>
      v ← resolve b e;
      r ← render_chunks b rest;
      Some (String.append v r)
  end.

(** The three bindings a script is rendered with, under the names the
    [script] docstring gives them. *)
Definition required : list string := ["client"; "code"; "calc"].

(** Modelled from the spec: the script renderer, which the module does
    not contain. Rendering needs the three named bindings and fails with
    [TemplateRenderError] when one of them, or a field the script refers
    to, does not exist; it reads the database and hands it back as it
    was. *)
Definition render (b : gmap string binding) (script : string) (db : Store)
  : (TemplateRenderError + string) * Store :=
  if forallb (fun n => bool_decide (is_Some (b !! n))) required then
    match render_chunks b (scan false EmptyString script) with
    | Some text => (inr text, db)
    | None => (inl MkTemplateRenderError, db)
    end
  else (inl MkTemplateRenderError, db).
End Template.

(** ** The lifecycle order, as the specification words it *)

(** The step that follows in [created -> uploading -> submitting ->
    running -> retrieving -> finalised]. *)
Definition spec_next_step (s : step_t) : option step_t :=
  match s with
  | created => Some uploading
  | uploading => Some submitting
  | submitting => Some running
  | running => Some retrieving
  | retrieving => Some finalised
  | finalised => None
  end.

(** The step changes the specification permits: one step along the
    order, or to [finalised] from anywhere once a failure is recorded. *)
Definition spec_transition_allowed (self : Processing) (s : step_t) : bool :=
  bool_decide (spec_next_step (step self) = Some s)
  || (bool_decide (s = finalised) && bool_decide (is_Some (exception self))).

(** ** Sample instances *)

(** A small generator: a counter, reduced modulo the bound. *)
Module Sample.
Definition rng : Type := nat.

Definition _randbelow (n : nat) (g : rng) : nat * rng :=
  (Nat.modulo g n, S g).

Definition uuid4 (g : rng) : string * rng :=
  ("3f2b8c1e-7a4d-4e0b-9c55-0d6f1a2b3c4d", S g).

Definition a_client (label : option string) (fs : fsystem_t) (wd : string)
  : NewClient.t :=
  NewClient.mk label "https://firecrest.example.org" "id"
               "https://auth.example.org/token" "secret" "daint" wd
               (Some fs) None.

Definition a_code (label : option string) (cpk : Z) : NewCode.t :=
  NewCode.mk label cpk "#!/bin/bash" None.

Definition a_calcjob (u : option string) (k : Z) : NewCalcJob.t :=
  NewCalcJob.mk None u k None None None.

(** Running writes one after the other, ignoring what they raise. *)
Definition then_ (w : Store -> rng -> (exn + Z) * Store * rng)
    (st : Store * rng) : Store * rng :=
  let '(_, db, g) := w st.1 st.2 in (db, g).
End Sample.

(** ** Plain path components *)

(** [c] does not occur in [s]. *)
Fixpoint absent (c : ascii) (s : string) : bool :=
  match s with
  | EmptyString => true
  | String d s' => negb (Ascii.eqb d c) && absent c s'
  end.

(** A single path component for both flavours: not empty, not ["."], and
    free of separators and of the drive colon. *)
Definition plain (s : string) : bool :=
  pathlib.kept s && absent "/" s && absent "\" s && absent ":" s.

(** A gateway that cannot be reached at the first attempt and answers
    from the second on; the world counts the attempts made. *)
Module SampleGateway.
Definition Firecrest : Type := string * (string * string * string).
Definition Auth : Type := (string * string * string)%type.
Definition error : Type := string.
Definition world : Type := nat.

Definition ClientCredentialsAuth (id secret uri : string) : Auth :=
  (id, secret, uri).

Definition new_Firecrest (url : string) (auth : Auth) (w : world)
  : (error + Firecrest) * world :=
  match w with
  | O => (inl "unreachable", S w)
  | S _ => (inr (url, auth), S w)
  end.

Definition a_client : ClientObject Firecrest :=
  mkClientObject Firecrest
    (mkClient (Some 1) "daint" "https://firecrest.example.org" "id"
              "https://auth.example.org/token" "secret" "daint" "/home/u"
              posix 5)
    None.
End SampleGateway.

(** ** Integrity of a database *)

(** What the declared constraints amount to: every foreign key names a
    stored row, client labels are unique, and code labels are unique under
    one client. *)
Record wf (db : Store) : Prop := mkWf {
  wf_codes : forall k c,
    codes db !! k = Some c -> is_Some (clients db !! client_pk c);
  wf_calcjobs : forall k c,
    calcjobs db !! k = Some c -> is_Some (codes db !! code_pk c);
  wf_statuses : forall k p,
    statuses db !! k = Some p -> is_Some (calcjobs db !! calcjob_pk p);
  wf_data : forall k d,
    data db !! k = Some d -> is_Some (calcjobs db !! creator_pk d);
  wf_client_labels : forall k1 k2 c1 c2,
    clients db !! k1 = Some c1 -> clients db !! k2 = Some c2 ->
    client_label c1 = client_label c2 -> k1 = k2;
  wf_code_labels : forall k1 k2 c1 c2,
    codes db !! k1 = Some c1 -> codes db !! k2 = Some c2 ->
    client_pk c1 = client_pk c2 -> code_label c1 = code_label c2 -> k1 = k2
}.

(** ** String forms *)

(** [cls.__name__] *)
Definition __name__ (cls : class_t) : string :=
  match cls with
  | ClientCls => "Client"
  | CodeCls => "Code"
  | CalcJobCls => "CalcJob"
  | ProcessingCls => "Processing"
  | DataNodeCls => "DataNode"
  end.

(** [f"{x}"] for a primary key: the decimal numeral of an [int], and
    ["None"] for a key not yet set. *)
Definition format_pk (x : option Z) : string :=
  match x with
  | Some n => pretty n
  | None => "None"
  end.

(** [Base.__str__] *)
Definition Base__str__ (self : entity) : string :=
  __name__ (class_of self) +:+ "(" +:+ format_pk (pk self) +:+ ")".

(** [str(self)]: [Client], [Code] and [Processing] override [__str__];
    [CalcJob] and [DataNode] inherit it from [Base]. *)
Definition __str__ (self : entity) : string :=
  match self with
  | EClient c =>
      __name__ (class_of self) +:+ "(" +:+ format_pk (pk self) +:+ ", "
        +:+ client_label c +:+ ")"
  | ECode c =>
      __name__ (class_of self) +:+ "(" +:+ format_pk (pk self) +:+ ", "
        +:+ code_label c +:+ ")"
  | EProcessing p =>
      __name__ (class_of self) +:+ "(" +:+ format_pk (pk self) +:+ ", calc="
        +:+ pretty (calcjob_pk p) +:+ ")"
  | ECalcJob _ | EDataNode _ => Base__str__ self
  end.

(** Every character of [s] satisfies [P]. *)
Fixpoint all_chars (P : ascii -> bool) (s : string) : bool :=
  match s with
  | EmptyString => true
  | String c s' => P c && all_chars P s'
  end.

(** The characters of a decimal numeral: the ten digits and the sign. *)
Definition numeral_char (c : ascii) : bool :=
  let n := nat_of_ascii c in
  (Nat.leb 48 n && Nat.leb n 57) || Nat.eqb n 45.

(** The components of a path after its anchor. *)
Definition path_names (p : pathlib.PurePath) : list string :=
  if (pathlib.nonempty (pathlib._drv p) || pathlib.nonempty (pathlib._root p))%bool
  then List.tl (pathlib._parts p)
  else pathlib._parts p.

#[global] Instance flavour_eq_dec : EqDecision pathlib.flavour_t.
Proof. solve_decision. Defined.

(** [PurePath.__eq__] for two pure paths: the same flavour and the same
    case-folded parts ([_cparts]); folding lowers the case for the
    windows flavour and does nothing for the posix one. *)
Definition path_eq (p q : pathlib.PurePath) : bool :=
  bool_decide
    (pathlib.casefold (pathlib.flavour_of (pathlib._flavour p))
       <$> pathlib._parts p
     = pathlib.casefold (pathlib.flavour_of (pathlib._flavour q))
       <$> pathlib._parts q)
  && bool_decide (pathlib._flavour p = pathlib._flavour q).

(** The separator a path is printed with. *)
Definition path_sep (p : pathlib.PurePath) : ascii :=
  pathlib.sep (pathlib.flavour_of (pathlib._flavour p)).

(** The rows of the client, code, calcjob and output tables carry the key
    they are stored under. *)
Record keyed (db : Store) : Prop := mkKeyed {
  keyed_clients : forall k c, clients db !! k = Some c -> client_pk_ c = Some k;
  keyed_codes : forall k c, codes db !! k = Some c -> code_pk_ c = Some k;
  keyed_calcjobs : forall k c,
    calcjobs db !! k = Some c -> calcjob_pk_ c = Some k;
  keyed_data : forall k d, data db !! k = Some d -> datanode_pk_ d = Some k
}.

(** * Properties *)

(** ** Defaults drawn from the name pool *)

Section DefaultsFacts.
Variable rng : Type.
Variable _randbelow : nat -> rng -> nat * rng.
Hypothesis _randbelow_lt :
  forall n g, (0 < n)%nat -> (fst (_randbelow n g) < n)%nat.

Lemma choice_elem_of {A : Type} (seq : list A) (g : rng) :
  seq <> [] ->
  exists x, (choice rng _randbelow seq g).1 = Some x /\ x ∈ seq.
Proof using _randbelow_lt.
  intros Hne. unfold choice. destruct seq as [|a seq']; [done|].
  pose proof (_randbelow_lt (length (a :: seq')) g ltac:(simpl; lia)) as Hlt.
  destruct (_randbelow (length (a :: seq')) g) as [k g'] eqn:E.
  simpl in Hlt. simpl fst.
  destruct (lookup_lt_is_Some_2 (a :: seq') k ltac:(simpl; lia)) as [x Hx].
  exists x. split; [done|]. by eapply list_elem_of_lookup_2.
Qed.

Lemma label_or_default_unset (g : rng) :
  exists l, (label_or_default rng _randbelow None g).1 = Some l /\ l ∈ NAMES.
Proof using _randbelow_lt.
  unfold label_or_default. by apply choice_elem_of.
Qed.
End DefaultsFacts.

Lemma sample_randbelow_lt n g :
  (0 < n)%nat -> (fst (Sample._randbelow n g) < n)%nat.
Proof. intros Hn. simpl. apply Nat.mod_upper_bound. lia. Qed.

Lemma NAMES_length : length NAMES = 50%nat.
Proof. reflexivity. Qed.

(** C8. A profile created with no label given is stored under a label
    taken from [NAMES], the pool of fifty names: whenever
    [add_client] succeeds for constructor arguments whose label is unset,
    the row it stored carries a label that occurs in [NAMES]. *)
Theorem client_default_label_in_NAMES
    (rng : Type) (_randbelow : nat -> rng -> nat * rng)
    (_randbelow_lt : forall n g, (0 < n)%nat -> (fst (_randbelow n g) < n)%nat)
    (new : NewClient.t) (db db' : Store) (g g' : rng) (k : Z) :
  NewClient.label new = None ->
  add_client rng _randbelow new db g = (inr k, db', g') ->
  length NAMES = 50%nat /\
  exists row, clients db' !! k = Some row /\ client_label row ∈ NAMES.
Proof.
  intros Hnone Hadd. split; [apply NAMES_length|].
  unfold add_client in Hadd. rewrite Hnone in Hadd.
  destruct (label_or_default_unset rng _randbelow _randbelow_lt g)
    as (l & Hl & Hin).
  destruct (label_or_default rng _randbelow None g) as [ol g1].
  simpl in Hl. subst ol.
  destruct (client_label_taken db l); [discriminate|].
  injection Hadd as <- <- <-. simpl.
  eexists. split; [apply lookup_insert_eq|]. exact Hin.
Qed.

Lemma client_default_label_in_NAMES_witness :
  let new := Sample.a_client None posix "/home/u" in
  let r := add_client Sample.rng Sample._randbelow new empty_store 7%nat in
  NewClient.label new = None /\
  r.1.1 = inr 1 /\
  length NAMES = 50%nat /\
  exists row, clients r.1.2 !! 1 = Some row /\ client_label row ∈ NAMES.
Proof.
  intros new r.
  split; [reflexivity|]. split; [vm_compute; reflexivity|].
  apply (client_default_label_in_NAMES Sample.rng Sample._randbelow
           sample_randbelow_lt new empty_store r.1.2 7%nat r.2 1).
  - reflexivity.
  - vm_compute. reflexivity.
Defined.

(** C10. A code created with no label given is stored under a label taken
    from the same pool [NAMES] that supplies the default label of a
    client. *)
Theorem code_default_label_in_NAMES
    (rng : Type) (_randbelow : nat -> rng -> nat * rng)
    (_randbelow_lt : forall n g, (0 < n)%nat -> (fst (_randbelow n g) < n)%nat)
    (new : NewCode.t) (db db' : Store) (g g' : rng) (k : Z) :
  NewCode.label new = None ->
  add_code rng _randbelow new db g = (inr k, db', g') ->
  exists row, codes db' !! k = Some row /\ code_label row ∈ NAMES.
Proof.
  intros Hnone Hadd.
  unfold add_code in Hadd. rewrite Hnone in Hadd.
  destruct (label_or_default_unset rng _randbelow _randbelow_lt g)
    as (l & Hl & Hin).
  destruct (label_or_default rng _randbelow None g) as [ol g1].
  simpl in Hl. subst ol.
  destruct (code_label_taken db (NewCode.client_pk new) l); [discriminate|].
  case_bool_decide; [discriminate|].
  injection Hadd as <- <- <-. simpl.
  eexists. split; [apply lookup_insert_eq|]. exact Hin.
Qed.

Lemma code_default_label_in_NAMES_witness :
  let db :=
    (add_client Sample.rng Sample._randbelow
       (Sample.a_client (Some "daint") posix "/home/u") empty_store 0%nat).1.2 in
  let new := Sample.a_code None 1 in
  let r := add_code Sample.rng Sample._randbelow new db 11%nat in
  NewCode.label new = None /\
  r.1.1 = inr 1 /\
  exists row, codes r.1.2 !! 1 = Some row /\ code_label row ∈ NAMES.
Proof.
  intros db new r.
  split; [reflexivity|]. split; [vm_compute; reflexivity|].
  apply (code_default_label_in_NAMES Sample.rng Sample._randbelow
           sample_randbelow_lt new db r.1.2 11%nat r.2 1).
  - reflexivity.
  - vm_compute. reflexivity.
Defined.

(** ** Equality and hashing *)

Lemma eq_Obj_iff (e1 e2 : entity) :
  __eq__ e1 (Obj e2) = true <-> class_of e1 = class_of e2 /\ pk e1 = pk e2.
Proof.
  unfold __eq__, isinstance.
  destruct (decide (class_of e2 = class_of e1)) as [Hc|Hc].
  - rewrite bool_decide_eq_true_2 by done. simpl.
    rewrite bool_decide_eq_true. split; [intros Hpk|intros [_ Hpk]]; auto.
  - rewrite bool_decide_eq_false_2 by done. simpl.
    split; [discriminate|]. intros [Hcls _]. by destruct Hc.
Qed.

(** C9, as the code has it. Two mapped objects compare equal exactly when
    they are of the same class and have the same primary key; an object
    that is not of the left operand's class never compares equal to it,
    whatever its key; the hash of a mapped object is the hash of its
    primary key, so equal objects hash alike. *)
Theorem eq_same_class_and_pk (hash_None : Z) (e1 e2 : entity) :
  (__eq__ e1 (Obj e2) = true <-> class_of e1 = class_of e2 /\ pk e1 = pk e2)
  /\ __eq__ e1 Foreign = false
  /\ __hash__ hash_None e1 = hash hash_None (pk e1)
  /\ (__eq__ e1 (Obj e2) = true ->
      __hash__ hash_None e1 = __hash__ hash_None e2).
Proof.
  split; [apply eq_Obj_iff|]. split; [reflexivity|]. split; [reflexivity|].
  intros [_ Hpk]%eq_Obj_iff. unfold __hash__. by rewrite Hpk.
Qed.

(** C9 as stated fails: a client and a code that both have primary key
    [1] have equal identifiers and yet do not compare equal. *)
Lemma eq_not_by_pk_alone :
  let c := EClient (mkClient (Some 1) "a" "" "" "" "" "" "/home/u" posix 5) in
  let d := ECode (mkCode (Some 1) "a" 1 "" []) in
  pk c = pk d /\ __eq__ c (Obj d) = false /\ __eq__ d (Obj c) = false.
Proof. repeat split. Qed.

(** ** The step column *)

(** C1 as stated fails: a status that is [finalised] with no failure
    recorded can be set back to [created]; the specification's order does
    not allow the change, the assignment goes through and the step is
    changed. *)
Lemma step_assignment_not_rejected :
  let p := mkProcessing (Some 1) 1 finalised None None in
  let db := mkStore ∅ ∅ ∅ {[ 1 := p ]} ∅ in
  spec_transition_allowed p created = false /\
  step (set_step p created) = created /\
  step <$> statuses (update_status (fun q => set_step q created) 1 db) !! 1
    = Some created /\
  step p <> created.
Proof. repeat split; try reflexivity. discriminate. Qed.

(** C1, as the code has it. The step is one of the six values of the
    enumeration; a status stored with no step given starts at [created];
    assigning any of the six values to the step of a stored status is
    accepted whatever the current step and whether or not a failure is
    recorded, stores that value, and changes neither the other columns of
    the row nor any other row. *)
Theorem step_assignment_unchecked
    (db : Store) (k : Z) (p : Processing) (s : step_t) :
  statuses db !! k = Some p ->
  let db' := update_status (fun q => set_step q s) k db in
  s ∈ [created; uploading; submitting; running; retrieving; finalised]
  /\ statuses db' !! k = Some (set_step p s)
  /\ step (set_step p s) = s
  /\ calcjob_pk (set_step p s) = calcjob_pk p
  /\ job_id (set_step p s) = job_id p
  /\ exception (set_step p s) = exception p
  /\ (forall j, j <> k -> statuses db' !! j = statuses db !! j)
  /\ (forall (rng : Type) (new : NewProcessing.t) (g : rng) (k' : Z) db'' g',
        NewProcessing.step new = None ->
        add_processing rng new db g = (inr k', db'', g') ->
        step <$> statuses db'' !! k' = Some created).
Proof.
  intros Hp db'. subst db'. simpl.
  split; [destruct s; set_solver|].
  split; [by rewrite lookup_alter_eq, Hp|].
  do 4 (split; [reflexivity|]).
  split; [intros j Hj; by rewrite lookup_alter_ne|].
  intros rng new g k' db'' g' Hnone Hadd. unfold add_processing in Hadd.
  case_bool_decide; [discriminate|].
  injection Hadd as <- <- <-. simpl.
  by rewrite lookup_insert_eq, Hnone.
Qed.

Lemma step_assignment_unchecked_witness :
  let p := mkProcessing (Some 1) 1 retrieving (Some "42") None in
  let db := mkStore ∅ ∅ ∅ {[ 1 := p ]} ∅ in
  statuses db !! 1 = Some p /\
  statuses (update_status (fun q => set_step q uploading) 1 db) !! 1
    = Some (mkProcessing (Some 1) 1 uploading (Some "42") None).
Proof.
  intros p db. split; [reflexivity|].
  apply (step_assignment_unchecked db 1 p uploading). reflexivity.
Defined.

(** ** Paths *)

Lemma split_absent (c : ascii) (s : string) :
  absent c s = true -> pathlib.split c s = [s].
Proof.
  induction s as [|d s IH]; simpl; [done|].
  intros [Hd Hs]%andb_prop. apply negb_true_iff in Hd. rewrite Hd.
  by rewrite (IH Hs).
Qed.

Lemma replace_absent (a b : ascii) (s : string) :
  absent a s = true -> pathlib.replace a b s = s.
Proof.
  induction s as [|d s IH]; simpl; [done|].
  intros [Hd Hs]%andb_prop. apply negb_true_iff in Hd. rewrite Hd.
  by rewrite (IH Hs).
Qed.

Lemma get_absent (c : ascii) (i : nat) (s : string) :
  absent c s = true -> pathlib.char_at_is i c s = false.
Proof.
  unfold pathlib.char_at_is. revert i.
  induction s as [|d s IH]; intros i Habs; [by destruct i|].
  simpl in Habs. apply andb_prop in Habs as [Hd Hs].
  apply negb_true_iff in Hd.
  destruct i as [|i]; simpl; [done|]. by apply IH.
Qed.

Lemma posix_parse_plain (s : string) :
  plain s = true ->
  pathlib.parse_parts pathlib._posix_flavour s = (EmptyString, EmptyString, [s]).
Proof.
  unfold plain. intros Hp.
  apply andb_prop in Hp as [Hp Hcolon].
  apply andb_prop in Hp as [Hp Hback].
  apply andb_prop in Hp as [Hp Hslash].
  unfold pathlib.parse_parts.
  assert (Hne : pathlib.nonempty s = true).
  { unfold pathlib.kept in Hp. by apply andb_prop in Hp as [? _]. }
  rewrite Hne. simpl.
  assert (Hroot : pathlib.posix_splitroot s = (EmptyString, EmptyString, s)).
  { destruct s as [|c s']; [done|]. simpl.
    assert (Ascii.eqb c pathlib.slash = false) as ->; [|done].
    simpl in Hslash. apply andb_prop in Hslash as [Hc _].
    by apply negb_true_iff in Hc. }
  rewrite Hroot. simpl.
  rewrite split_absent by done. simpl. by rewrite Hp.
Qed.

Lemma windows_parse_plain (s : string) :
  plain s = true ->
  pathlib.parse_parts pathlib._windows_flavour s
  = (EmptyString, EmptyString, [s]).
Proof.
  unfold plain. intros Hp.
  apply andb_prop in Hp as [Hp Hcolon].
  apply andb_prop in Hp as [Hp Hback].
  apply andb_prop in Hp as [Hp Hslash].
  unfold pathlib.parse_parts.
  assert (Hne : pathlib.nonempty s = true).
  { unfold pathlib.kept in Hp. by apply andb_prop in Hp as [? _]. }
  rewrite Hne. simpl.
  rewrite replace_absent by done.
  assert (Hroot : pathlib.windows_splitroot s = (EmptyString, EmptyString, s)).
  { unfold pathlib.windows_splitroot.
    rewrite !(get_absent pathlib.backslash) by done. simpl.
    rewrite !(get_absent pathlib.backslash) by done.
    rewrite !(get_absent pathlib.colon) by done. reflexivity. }
  rewrite Hroot. simpl.
  rewrite split_absent by done. simpl. by rewrite Hp.
Qed.

(** Joining a plain component appends it and keeps the anchor. *)
Lemma truediv_plain (p : pathlib.PurePath) (s : string) :
  plain s = true ->
  p // s = pathlib.mkPurePath (pathlib._flavour p) (pathlib._drv p)
             (pathlib._root p) (pathlib._parts p ++ [s])%list.
Proof.
  intros Hp. unfold pathlib.truediv.
  destruct (pathlib._flavour p); simpl pathlib.flavour_of.
  - rewrite (posix_parse_plain s Hp). reflexivity.
  - rewrite (windows_parse_plain s Hp). reflexivity.
Qed.

(** C2. The remote folder of a calcjob is the working directory of the
    client that owns its code, read under that client's file system, joined
    with ["workflows"] and then with the calcjob's [uuid]. When the [uuid]
    is a plain component the result keeps the anchor of the working
    directory and has its parts followed by ["workflows"] and the [uuid].
    For a posix client working in [/home/u] and the identifier [abc-123]
    it prints as [/home/u/workflows/abc-123]; for a windows client working
    in [C:\Users\u] it prints as [C:\Users\u\workflows\abc-123]. *)
Theorem remote_path_joins_work_path
    (db : Store) (self : CalcJob) (code : Code) (client : Client) :
  codes db !! code_pk self = Some code ->
  clients db !! client_pk code = Some client ->
  remote_path db self = Some (work_path client // "workflows" // uuid self)
  /\ work_path client
     = match fsystem client with
       | posix => pathlib.PurePosixPath (work_dir client)
       | windows => pathlib.PureWindowsPath (work_dir client)
       end
  /\ (plain (uuid self) = true ->
      exists p, remote_path db self = Some p
        /\ pathlib._drv p = pathlib._drv (work_path client)
        /\ pathlib._root p = pathlib._root (work_path client)
        /\ pathlib._parts p
           = (pathlib._parts (work_path client) ++ ["workflows"; uuid self])%list)
  /\ (fsystem client = posix -> work_dir client = "/home/u" ->
      uuid self = "abc-123" ->
      pathlib.str <$> remote_path db self = Some "/home/u/workflows/abc-123")
  /\ (fsystem client = windows -> work_dir client = "C:\Users\u" ->
      uuid self = "abc-123" ->
      pathlib.str <$> remote_path db self
      = Some "C:\Users\u\workflows\abc-123").
Proof.
  intros Hcode Hclient.
  assert (Hrp : remote_path db self
                = Some (work_path client // "workflows" // uuid self)).
  { unfold remote_path. rewrite Hcode. simpl. by rewrite Hclient. }
  split; [exact Hrp|].
  split; [unfold work_path; by destruct (fsystem client)|].
  split.
  { intros Hplain. eexists. split; [exact Hrp|].
    rewrite (truediv_plain _ (uuid self) Hplain).
    rewrite (truediv_plain _ "workflows" eq_refl). simpl.
    by rewrite <- app_assoc. }
  split.
  - intros Hfs Hwd Hu. rewrite Hrp. unfold work_path.
    rewrite Hfs, Hwd, Hu. reflexivity.
  - intros Hfs Hwd Hu. rewrite Hrp. unfold work_path.
    rewrite Hfs, Hwd, Hu. reflexivity.
Qed.

Lemma remote_path_joins_work_path_witness :
  let unix := mkClient (Some 1) "daint" "" "" "" "" "" "/home/u" posix 5 in
  let win := mkClient (Some 2) "hpc" "" "" "" "" "" "C:\Users\u" windows 5 in
  let code1 := mkCode (Some 1) "a" 1 "" [] in
  let code2 := mkCode (Some 2) "a" 2 "" [] in
  let calc1 := mkCalcJob (Some 1) "" "abc-123" 1 [] [] [] in
  let calc2 := mkCalcJob (Some 2) "" "abc-123" 2 [] [] [] in
  let db := mkStore {[ 1 := unix; 2 := win ]} {[ 1 := code1; 2 := code2 ]}
                    {[ 1 := calc1; 2 := calc2 ]} ∅ ∅ in
  pathlib.str <$> remote_path db calc1 = Some "/home/u/workflows/abc-123"
  /\ pathlib.str <$> remote_path db calc2
     = Some "C:\Users\u\workflows\abc-123".
Proof.
  intros unix win code1 code2 calc1 calc2 db. split.
  - apply (remote_path_joins_work_path db calc1 code1 unix);
      reflexivity.
  - apply (remote_path_joins_work_path db calc2 code2 win);
      reflexivity.
Defined.

(** ** The cached gateway handle *)

(** C5. On an instance with no handle yet, an access calls the
    constructor. If the constructor returns a handle, the access returns
    it and stores it on the instance, and every later access returns that
    same handle, leaves the instance as it is and does not call the
    constructor (the world is not touched). If the constructor fails, the
    access fails with the constructor's failure, the instance still has no
    handle, and the next access calls the constructor again and does
    whatever that call does. *)
Theorem client_handle_cached
    (Firecrest Auth error world : Type)
    (ClientCredentialsAuth : string -> string -> string -> Auth)
    (new_Firecrest : string -> Auth -> world -> (error + Firecrest) * world)
    (self : ClientObject Firecrest) (w : world) :
  _client Firecrest self = None ->
  let get := client Firecrest Auth error world ClientCredentialsAuth
                    new_Firecrest in
  let construct :=
    new_Firecrest (client_url (columns Firecrest self))
      (ClientCredentialsAuth (client_id (columns Firecrest self))
                             (client_secret (columns Firecrest self))
                             (token_uri (columns Firecrest self))) in
  (forall h w1, construct w = (inr h, w1) ->
     let self' := mkClientObject Firecrest (columns Firecrest self) (Some h) in
     get self w = (inr h, self', w1)
     /\ forall w2, get self' w2 = (inr h, self', w2))
  /\ (forall e w1, construct w = (inl e, w1) ->
        get self w = (inl e, self, w1)
        /\ _client Firecrest self = None
        /\ (forall h w2, construct w1 = (inr h, w2) ->
              get self w1
              = (inr h,
                 mkClientObject Firecrest (columns Firecrest self) (Some h),
                 w2))
        /\ (forall e' w2, construct w1 = (inl e', w2) ->
              get self w1 = (inl e', self, w2))).
Proof.
  intros Hnone get construct. subst get construct. split.
  - intros h w1 Hc. split.
    + unfold client. rewrite Hnone, Hc. reflexivity.
    + intros w2. reflexivity.
  - intros e w1 Hc. split; [|split; [exact Hnone|split]].
    + unfold client. rewrite Hnone, Hc. reflexivity.
    + intros h w2 Hc'. unfold client. rewrite Hnone, Hc'. reflexivity.
    + intros e' w2 Hc'. unfold client. rewrite Hnone, Hc'. reflexivity.
Qed.

Lemma client_handle_cached_witness :
  let get := client SampleGateway.Firecrest SampleGateway.Auth
               SampleGateway.error SampleGateway.world
               SampleGateway.ClientCredentialsAuth
               SampleGateway.new_Firecrest in
  let self := SampleGateway.a_client in
  _client _ self = None
  /\ get self 0%nat = (inl "unreachable", self, 1%nat)
  /\ exists h, get self 1%nat
               = (inr h, mkClientObject _ (columns _ self) (Some h), 2%nat)
       /\ get (mkClientObject _ (columns _ self) (Some h)) 5%nat
          = (inr h, mkClientObject _ (columns _ self) (Some h), 5%nat).
Proof.
  intros get self.
  pose proof (client_handle_cached SampleGateway.Firecrest SampleGateway.Auth
                SampleGateway.error SampleGateway.world
                SampleGateway.ClientCredentialsAuth
                SampleGateway.new_Firecrest self 0%nat eq_refl) as [_ Hfail].
  pose proof (client_handle_cached SampleGateway.Firecrest SampleGateway.Auth
                SampleGateway.error SampleGateway.world
                SampleGateway.ClientCredentialsAuth
                SampleGateway.new_Firecrest self 1%nat eq_refl) as [Hok _].
  split; [reflexivity|]. split.
  - apply (Hfail "unreachable" 1%nat). reflexivity.
  - eexists.
    destruct (Hok _ 2%nat eq_refl) as [Hfirst Hlater].
    split; [exact Hfirst | exact (Hlater 5%nat)].
Defined.

(** ** Primary keys and integrity *)

Lemma next_pk_above {A : Type} (m : gmap Z A) (k : Z) :
  is_Some (m !! k) -> k < next_pk m.
Proof.
  unfold next_pk.
  enough (H : is_Some (m !! k) ->
              k <= map_fold (fun k _ acc => Z.max k acc) 0 m).
  { intros Hk. specialize (H Hk). lia. }
  revert k.
  apply (map_fold_weak_ind
           (fun r (m : gmap Z A) => forall k, is_Some (m !! k) -> k <= r)).
  - intros k [x Hx]. by rewrite lookup_empty in Hx.
  - intros i x m' r Hi IH k [y Hy].
    destruct (decide (i = k)) as [->|Hne]; [lia|].
    rewrite lookup_insert_ne in Hy by done.
    specialize (IH k (ex_intro _ y Hy)). lia.
Qed.

Lemma next_pk_fresh {A : Type} (m : gmap Z A) : m !! next_pk m = None.
Proof.
  destruct (m !! next_pk m) eqn:E; [|done].
  pose proof (next_pk_above m (next_pk m) (ex_intro _ _ E)). lia.
Qed.

Lemma client_label_taken_true (db : Store) (l : string) :
  client_label_taken db l = true <->
  exists k c, clients db !! k = Some c /\ client_label c = l.
Proof.
  unfold client_label_taken. rewrite bool_decide_eq_true.
  apply map_Exists_lookup.
Qed.

Lemma code_label_taken_true (db : Store) (cpk : Z) (l : string) :
  code_label_taken db cpk l = true <->
  exists k c, codes db !! k = Some c /\ client_pk c = cpk /\ code_label c = l.
Proof.
  unfold code_label_taken. rewrite bool_decide_eq_true.
  apply map_Exists_lookup.
Qed.

Lemma wf_empty : wf empty_store.
Proof. split; simpl; intros *; by rewrite lookup_empty. Qed.

Section StoreFacts.
Variable rng : Type.
Variable _randbelow : nat -> rng -> nat * rng.
Variable uuid4 : rng -> string * rng.

Lemma wf_add_client new db g :
  wf db -> wf (add_client rng _randbelow new db g).1.2.
Proof.
  intros Hwf. unfold add_client.
  destruct (label_or_default rng _randbelow (NewClient.label new) g)
    as [[l|] g1]; [|done].
  destruct (client_label_taken db l) eqn:Htaken; [done|].
  destruct Hwf as [H1 H2 H3 H4 H5 H6]. split; simpl; try done.
  - intros k c Hc. destruct (H1 k c Hc) as [x Hx].
    destruct (decide (next_pk (clients db) = client_pk c)) as [E|E].
    + rewrite E, lookup_insert_eq. eauto.
    + rewrite lookup_insert_ne by done. eauto.
  - assert (Hfree : forall k c, clients db !! k = Some c ->
                                client_label c <> l).
    { intros k c Hc Hl.
      assert (client_label_taken db l = true); [|congruence].
      apply client_label_taken_true. eauto. }
    intros k1 k2 c1 c2.
    rewrite !lookup_insert_Some.
    intros [[<- <-]|[? Hc1]] [[<- <-]|[? Hc2]]; simpl; try done.
    + intros Hl. symmetry in Hl. by destruct (Hfree _ _ Hc2).
    + intros Hl. by destruct (Hfree _ _ Hc1).
    + by apply H5.
Qed.

Lemma wf_add_code new db g :
  wf db -> wf (add_code rng _randbelow new db g).1.2.
Proof.
  intros Hwf. unfold add_code.
  destruct (label_or_default rng _randbelow (NewCode.label new) g)
    as [[l|] g1]; [|done].
  destruct (code_label_taken db (NewCode.client_pk new) l) eqn:Htaken;
    [done|].
  case_bool_decide as Hfk; [done|].
  destruct Hwf as [H1 H2 H3 H4 H5 H6]. split; simpl; try done.
  - intros k c. rewrite lookup_insert_Some.
    intros [[_ <-]|[_ Hc]]; simpl; [|by eapply H1].
    by destruct (clients db !! NewCode.client_pk new); eauto.
  - intros k c Hc. destruct (H2 k c Hc) as [x Hx].
    destruct (decide (next_pk (codes db) = code_pk c)) as [E|E].
    + rewrite E, lookup_insert_eq. eauto.
    + rewrite lookup_insert_ne by done. eauto.
  - assert (Hfree : forall k c, codes db !! k = Some c ->
              client_pk c = NewCode.client_pk new -> code_label c <> l).
    { intros k c Hc Hp Hl.
      assert (code_label_taken db (NewCode.client_pk new) l = true);
        [|congruence].
      apply code_label_taken_true. eauto. }
    intros k1 k2 c1 c2.
    rewrite !lookup_insert_Some.
    intros [[<- <-]|[? Hc1]] [[<- <-]|[? Hc2]]; simpl; try done.
    + intros Hp Hl. symmetry in Hp, Hl. by destruct (Hfree _ _ Hc2 Hp).
    + intros Hp Hl. by destruct (Hfree _ _ Hc1 Hp).
    + by apply H6.
Qed.

Lemma wf_add_calcjob new db g :
  wf db -> wf (add_calcjob rng uuid4 new db g).1.2.
Proof.
  intros Hwf. unfold add_calcjob.
  destruct (match NewCalcJob.uuid new with
            | Some u => (u, g)
            | None => uuid4 g
            end) as [u g1].
  case_bool_decide as Hfk; [done|].
  destruct Hwf as [H1 H2 H3 H4 H5 H6]. split; simpl; try done.
  - intros k c. rewrite lookup_insert_Some.
    intros [[_ <-]|[_ Hc]]; simpl; [|by eapply H2].
    by destruct (codes db !! NewCalcJob.code_pk new); eauto.
  - intros k p Hp. destruct (H3 k p Hp) as [x Hx].
    destruct (decide (next_pk (calcjobs db) = calcjob_pk p)) as [E|E].
    + rewrite E, lookup_insert_eq. eauto.
    + rewrite lookup_insert_ne by done. eauto.
  - intros k d Hd. destruct (H4 k d Hd) as [x Hx].
    destruct (decide (next_pk (calcjobs db) = creator_pk d)) as [E|E].
    + rewrite E, lookup_insert_eq. eauto.
    + rewrite lookup_insert_ne by done. eauto.
Qed.

Lemma wf_add_processing new db g :
  wf db -> wf (add_processing rng new db g).1.2.
Proof.
  intros Hwf. unfold add_processing.
  case_bool_decide as Hfk; [done|].
  destruct Hwf as [H1 H2 H3 H4 H5 H6]. split; simpl; try done.
  intros k p. rewrite lookup_insert_Some.
  intros [[_ <-]|[_ Hp]]; simpl; [|by eapply H3].
  by destruct (calcjobs db !! NewProcessing.calcjob_pk new); eauto.
Qed.

Lemma wf_add_datanode new db g :
  wf db -> wf (add_datanode rng new db g).1.2.
Proof.
  intros Hwf. unfold add_datanode.
  case_bool_decide as Hfk; [done|].
  destruct Hwf as [H1 H2 H3 H4 H5 H6]. split; simpl; try done.
  intros k d. rewrite lookup_insert_Some.
  intros [[_ <-]|[_ Hd]]; simpl; [|by eapply H4].
  by destruct (calcjobs db !! NewDataNode.creator_pk new); eauto.
Qed.

Lemma wf_delete_calcjob k db : wf db -> wf (delete_calcjob k db).2.
Proof.
  intros Hwf. unfold delete_calcjob.
  destruct (calcjobs db !! k) as [c0|]; [|done]. case_decide; [|done].
  destruct Hwf as [H1 H2 H3 H4 H5 H6]. split; simpl; try done.
  - intros j c [_ Hc]%lookup_delete_Some. by eapply H2.
  - intros j p [Hp Hne]%map_lookup_filter_Some. simpl in Hne.
    rewrite lookup_delete_ne by done. by eapply H3.
  - intros j d [Hd Hne]%map_lookup_filter_Some. simpl in Hne.
    rewrite lookup_delete_ne by done. by eapply H4.
Qed.

Lemma wf_delete_status k db : wf db -> wf (delete_status k db).
Proof.
  intros [H1 H2 H3 H4 H5 H6]. split; simpl; try done.
  intros j p [_ Hp]%lookup_delete_Some. by eapply H3.
Qed.

Lemma wf_delete_datanode k db : wf db -> wf (delete_datanode k db).
Proof.
  intros [H1 H2 H3 H4 H5 H6]. split; simpl; try done.
  intros j d [_ Hd]%lookup_delete_Some. by eapply H4.
Qed.

Lemma wf_update_status f k db :
  (forall p, calcjob_pk (f p) = calcjob_pk p) ->
  wf db -> wf (update_status f k db).
Proof.
  intros Hf [H1 H2 H3 H4 H5 H6]. split; simpl; try done.
  intros j p. destruct (decide (k = j)) as [->|Hne].
  - rewrite lookup_alter_eq.
    destruct (statuses db !! j) as [q|] eqn:Hq; simpl; [|done].
    intros [= <-]. rewrite Hf. by eapply H3.
  - rewrite lookup_alter_ne by done. by eapply H3.
Qed.

(** Every database a session can bring about satisfies the declared
    constraints. *)
Lemma reachable_wf db : reachable rng _randbelow uuid4 db -> wf db.
Proof.
  induction 1;
    eauto using wf_empty, wf_add_client, wf_add_code, wf_add_calcjob,
      wf_add_processing, wf_add_datanode, wf_delete_calcjob,
      wf_delete_status, wf_delete_datanode, wf_update_status.
Qed.

Lemma reachable_outputs_stored
    (g : rng) (k : Z) (outputs : list NewOutput.t) (db : Store) :
  reachable rng _randbelow uuid4 db ->
  reachable rng _randbelow uuid4
    (foldl (fun d o =>
              (add_datanode rng (NewDataNode.mk (NewOutput.attributes o) k)
                            d g).1.2)
           db outputs).
Proof.
  revert db. induction outputs as [|o outputs IH]; intros db Hdb; [done|].
  cbn [foldl]. by apply IH, reach_add_datanode.
Qed.

(** Storing a calcjob together with a status and outputs leads to no
    database that the single writes do not lead to. *)
Lemma reachable_add_calcjob_with new status outputs db g :
  reachable rng _randbelow uuid4 db ->
  reachable rng _randbelow uuid4
    (add_calcjob_with rng uuid4 new status outputs db g).1.2.
Proof.
  intros Hdb. unfold add_calcjob_with.
  pose proof (reach_add_calcjob rng _randbelow uuid4 new db g Hdb) as Hcj.
  destruct (add_calcjob rng uuid4 new db g) as [[[e|k] db1] g1]; [done|].
  simpl in Hcj. cbv zeta. cbn [fst snd].
  apply reachable_outputs_stored.
  destruct status as [s|]; [|done]. by apply reach_add_processing.
Qed.
End StoreFacts.

(** ** Unique labels *)

(** C4. In a database reached through the session's writes: storing a
    client under a label that a stored client already has is refused with
    the integrity error of the unique constraint (the specification's
    [DuplicateLabel]) and hands the database back as it was; so is storing
    a code under a label that a stored code of the same client already
    has; and any two distinct stored clients have different labels, as
    have any two distinct stored codes of one client. *)
Theorem duplicate_label_refused
    (rng : Type) (_randbelow : nat -> rng -> nat * rng)
    (uuid4 : rng -> string * rng) (db : Store) :
  reachable rng _randbelow uuid4 db ->
  (forall new g l g1,
     label_or_default rng _randbelow (NewClient.label new) g = (Some l, g1) ->
     (exists k c, clients db !! k = Some c /\ client_label c = l) ->
     add_client rng _randbelow new db g
     = (inl (IntegrityError UniqueConstraint), db, g1))
  /\ (forall new g l g1,
        label_or_default rng _randbelow (NewCode.label new) g = (Some l, g1) ->
        (exists k c, codes db !! k = Some c
                     /\ client_pk c = NewCode.client_pk new
                     /\ code_label c = l) ->
        add_code rng _randbelow new db g
        = (inl (IntegrityError UniqueConstraint), db, g1))
  /\ (forall k1 k2 c1 c2,
        clients db !! k1 = Some c1 -> clients db !! k2 = Some c2 ->
        k1 <> k2 -> client_label c1 <> client_label c2)
  /\ (forall k1 k2 c1 c2,
        codes db !! k1 = Some c1 -> codes db !! k2 = Some c2 ->
        client_pk c1 = client_pk c2 ->
        k1 <> k2 -> code_label c1 <> code_label c2).
Proof.
  intros Hreach. apply reachable_wf in Hreach as [_ _ _ _ H5 H6].
  split; [|split; [|split]].
  - intros new g l g1 Hl Hex. unfold add_client. rewrite Hl.
    apply client_label_taken_true in Hex. by rewrite Hex.
  - intros new g l g1 Hl Hex. unfold add_code. rewrite Hl.
    apply code_label_taken_true in Hex. by rewrite Hex.
  - intros k1 k2 c1 c2 Hc1 Hc2 Hne Hl. apply Hne. by eapply H5.
  - intros k1 k2 c1 c2 Hc1 Hc2 Hp Hne Hl. apply Hne. by eapply H6.
Qed.

Lemma duplicate_label_refused_witness :
  let new := Sample.a_client (Some "daint") posix "/home/u" in
  let db :=
    (add_client Sample.rng Sample._randbelow new empty_store 0%nat).1.2 in
  reachable Sample.rng Sample._randbelow Sample.uuid4 db
  /\ (client_label <$> clients db !! 1) = Some "daint"
  /\ add_client Sample.rng Sample._randbelow new db 3%nat
     = (inl (IntegrityError UniqueConstraint), db, 3%nat).
Proof.
  intros new db.
  assert (Hreach : reachable Sample.rng Sample._randbelow Sample.uuid4 db).
  { apply reach_add_client, reach_empty. }
  split; [exact Hreach|]. split; [vm_compute; reflexivity|].
  apply (proj1 (duplicate_label_refused Sample.rng Sample._randbelow
                  Sample.uuid4 db Hreach) new 3%nat "daint" 3%nat).
  - reflexivity.
  - exists 1. eexists. split; vm_compute; reflexivity.
Defined.

(** ** Deleting a calcjob *)

Lemma without_calcjob_spec (db : Store) (k : Z) :
  let db' := without_calcjob k db in
  calcjobs db' !! k = None
  /\ status_of db' k = ∅
  /\ outputs_of db' k = ∅
  /\ (forall j p, statuses db' !! j = Some p <->
                  statuses db !! j = Some p /\ calcjob_pk p <> k)
  /\ (forall j d, data db' !! j = Some d <->
                  data db !! j = Some d /\ creator_pk d <> k)
  /\ (forall k', k' <> k ->
        calcjobs db' !! k' = calcjobs db !! k'
        /\ status_of db' k' = status_of db k'
        /\ outputs_of db' k' = outputs_of db k')
  /\ codes db' = codes db
  /\ clients db' = clients db.
Proof.
  simpl. unfold status_of, outputs_of. simpl.
  split; [apply lookup_delete_eq|].
  split.
  { apply map_empty. intros j. apply map_lookup_filter_None.
    right. intros p [_ Hne]%map_lookup_filter_Some. simpl in *. done. }
  split.
  { apply map_empty. intros j. apply map_lookup_filter_None.
    right. intros d [_ Hne]%map_lookup_filter_Some. simpl in *. done. }
  split; [intros j p; by rewrite map_lookup_filter_Some|].
  split; [intros j d; by rewrite map_lookup_filter_Some|].
  split; [|done].
  intros k' Hk'. split; [by apply lookup_delete_ne|]. split.
  - apply map_eq. intros j. apply option_eq. intros p.
    rewrite !map_lookup_filter_Some. simpl.
    split; [intros [[Hp _] Hk]; auto|].
    intros [Hp Hk]. repeat split; auto. congruence.
  - apply map_eq. intros j. apply option_eq. intros d.
    rewrite !map_lookup_filter_Some. simpl.
    split; [intros [[Hd _] Hk]; auto|].
    intros [Hd Hk]. repeat split; auto. congruence.
Qed.

Lemma delete_calcjob_ok (db : Store) (k : Z) (c : CalcJob) :
  calcjobs db !! k = Some c -> (size (status_of db k) <= 1)%nat ->
  delete_calcjob k db = (inr tt, without_calcjob k db).
Proof.
  intros Hc Hsize. unfold delete_calcjob. rewrite Hc. by rewrite decide_True.
Qed.

(** C6 as stated fails: a stored calcjob that two status rows reference
    (each stored by a write of its own, which the table accepts) is not
    deleted with its status: the deletion is refused, the calcjob is still
    stored and both status rows still reference it. *)
Lemma delete_calcjob_refused_with_two_statuses :
  let st0 := (empty_store, 0%nat) in
  let st1 := Sample.then_ (add_client Sample.rng Sample._randbelow
                (Sample.a_client (Some "daint") posix "/home/u")) st0 in
  let st2 := Sample.then_ (add_code Sample.rng Sample._randbelow
                (Sample.a_code (Some "pw.x") 1)) st1 in
  let st3 := Sample.then_ (add_calcjob Sample.rng Sample.uuid4
                (Sample.a_calcjob None 1)) st2 in
  let st4 := Sample.then_ (add_processing Sample.rng
                (NewProcessing.mk 1 None None None)) st3 in
  let st5 := Sample.then_ (add_processing Sample.rng
                (NewProcessing.mk 1 (Some running) (Some "42") None)) st4 in
  let db := st5.1 in
  reachable Sample.rng Sample._randbelow Sample.uuid4 db
  /\ is_Some (calcjobs db !! 1)
  /\ size (status_of db 1) = 2%nat
  /\ delete_calcjob 1 db = (inl (IntegrityError ForeignKeyConstraint), db)
  /\ is_Some (calcjobs (delete_calcjob 1 db).2 !! 1)
  /\ status_of (delete_calcjob 1 db).2 1 <> ∅.
Proof.
  intros st0 st1 st2 st3 st4 st5 db.
  assert (Hdel : delete_calcjob 1 db
                 = (inl (IntegrityError ForeignKeyConstraint), db))
    by (vm_compute; reflexivity).
  split.
  { assert (Hr : db =
      (add_processing Sample.rng
         (NewProcessing.mk 1 (Some running) (Some "42") None)
         (add_processing Sample.rng (NewProcessing.mk 1 None None None)
            (add_calcjob Sample.rng Sample.uuid4 (Sample.a_calcjob None 1)
               (add_code Sample.rng Sample._randbelow
                  (Sample.a_code (Some "pw.x") 1)
                  (add_client Sample.rng Sample._randbelow
                     (Sample.a_client (Some "daint") posix "/home/u")
                     empty_store 0%nat).1.2 0%nat).1.2 0%nat).1.2
            0%nat).1.2 0%nat).1.2)
      by (vm_compute; reflexivity).
    rewrite Hr.
    apply (reach_add_processing Sample.rng Sample._randbelow Sample.uuid4).
    apply (reach_add_processing Sample.rng Sample._randbelow Sample.uuid4).
    apply reach_add_calcjob, reach_add_code, reach_add_client.
    apply reach_empty. }
  split; [vm_compute; eauto|].
  split; [vm_compute; reflexivity|].
  split; [exact Hdel|].
  replace (delete_calcjob 1 db).2 with db by (by rewrite Hdel).
  split; [vm_compute; eauto|].
  intros Hempty.
  assert (Hsize : size (status_of db 1) = 2%nat) by (vm_compute; reflexivity).
  rewrite Hempty, map_size_empty in Hsize. discriminate.
Qed.

(** C6, as the code has it. Deleting a stored calcjob that at most one
    status row references succeeds and removes the calcjob, that status
    and every output of the calcjob, and nothing else: afterwards the
    calcjob is not stored and no status or output references it; a status
    or output row is stored afterwards exactly when it was stored before
    and references another calcjob, and it is stored unchanged; the
    status and outputs of every other calcjob, the other calcjobs, the
    codes and the clients are as before. *)
Theorem delete_calcjob_cascade (db : Store) (k : Z) (c : CalcJob) :
  calcjobs db !! k = Some c ->
  (size (status_of db k) <= 1)%nat ->
  exists db',
    delete_calcjob k db = (inr tt, db')
    /\ calcjobs db' !! k = None
    /\ status_of db' k = ∅
    /\ outputs_of db' k = ∅
    /\ (forall j p, statuses db' !! j = Some p <->
                    statuses db !! j = Some p /\ calcjob_pk p <> k)
    /\ (forall j d, data db' !! j = Some d <->
                    data db !! j = Some d /\ creator_pk d <> k)
    /\ (forall k', k' <> k ->
          calcjobs db' !! k' = calcjobs db !! k'
          /\ status_of db' k' = status_of db k'
          /\ outputs_of db' k' = outputs_of db k')
    /\ codes db' = codes db
    /\ clients db' = clients db.
Proof.
  intros Hc Hsize. exists (without_calcjob k db).
  split; [by eapply delete_calcjob_ok|]. apply without_calcjob_spec.
Qed.

Lemma delete_calcjob_cascade_witness :
  let calc u := mkCalcJob None "" u 1 [] [] [] in
  let db := mkStore
    {[ 1 := mkClient (Some 1) "daint" "" "" "" "" "" "/home/u" posix 5 ]}
    {[ 1 := mkCode (Some 1) "pw.x" 1 "#!/bin/bash" [] ]}
    {[ 1 := calc "abc-123"; 2 := calc "abc-124" ]}
    {[ 1 := mkProcessing (Some 1) 1 finalised (Some "42") None;
       2 := mkProcessing (Some 2) 2 running (Some "43") None ]}
    {[ 1 := mkDataNode (Some 1) [] 1; 2 := mkDataNode (Some 2) [] 1;
       3 := mkDataNode (Some 3) [] 2 ]} in
  calcjobs db !! 1 = Some (calc "abc-123")
  /\ (size (status_of db 1) <= 1)%nat
  /\ exists db', delete_calcjob 1 db = (inr tt, db')
       /\ status_of db' 1 = ∅ /\ outputs_of db' 1 = ∅
       /\ status_of db' 2 = status_of db 2
       /\ outputs_of db' 2 = outputs_of db 2.
Proof.
  intros calc db.
  assert (Hc : calcjobs db !! 1 = Some (calc "abc-123")) by reflexivity.
  assert (Hsize : (size (status_of db 1) <= 1)%nat) by (vm_compute; lia).
  split; [exact Hc|]. split; [exact Hsize|].
  destruct (delete_calcjob_cascade db 1 _ Hc Hsize)
    as (db' & Hdel & _ & Hst & Hout & _ & _ & Hframe & _).
  exists db'. split; [exact Hdel|]. split; [exact Hst|]. split; [exact Hout|].
  destruct (Hframe 2 ltac:(lia)) as (_ & H1 & H2). split; [exact H1|exact H2].
Defined.

(** ** The status of a calcjob *)

(** C3 as stated fails, in both directions: after a client, a code and
    a calcjob have been stored, the calcjob is there and no status row
    belongs to it; and after two statuses have been stored for it, each
    by a write of its own, two status rows belong to it. *)
Lemma calcjob_created_without_status :
  let st0 := (empty_store, 0%nat) in
  let st1 := Sample.then_ (add_client Sample.rng Sample._randbelow
                (Sample.a_client (Some "daint") posix "/home/u")) st0 in
  let st2 := Sample.then_ (add_code Sample.rng Sample._randbelow
                (Sample.a_code (Some "pw.x") 1)) st1 in
  let st3 := Sample.then_ (add_calcjob Sample.rng Sample.uuid4
                (Sample.a_calcjob None 1)) st2 in
  let st4 := Sample.then_ (add_processing Sample.rng
                (NewProcessing.mk 1 None None None)) st3 in
  let st5 := Sample.then_ (add_processing Sample.rng
                (NewProcessing.mk 1 (Some running) (Some "42") None)) st4 in
  reachable Sample.rng Sample._randbelow Sample.uuid4 st3.1
  /\ is_Some (calcjobs st3.1 !! 1)
  /\ size (status_of st3.1 1) = 0%nat
  /\ size (status_of st3.1 1) <> 1%nat
  /\ reachable Sample.rng Sample._randbelow Sample.uuid4 st5.1
  /\ is_Some (calcjobs st5.1 !! 1)
  /\ size (status_of st5.1 1) = 2%nat
  /\ size (status_of st5.1 1) <> 1%nat.
Proof.
  intros st0 st1 st2 st3 st4 st5.
  assert (Hr3 : st3.1 =
    (add_calcjob Sample.rng Sample.uuid4 (Sample.a_calcjob None 1)
       (add_code Sample.rng Sample._randbelow (Sample.a_code (Some "pw.x") 1)
          (add_client Sample.rng Sample._randbelow
             (Sample.a_client (Some "daint") posix "/home/u")
             empty_store 0%nat).1.2 0%nat).1.2 0%nat).1.2)
    by (vm_compute; reflexivity).
  assert (Hreach3 : reachable Sample.rng Sample._randbelow Sample.uuid4 st3.1).
  { rewrite Hr3. apply reach_add_calcjob, reach_add_code, reach_add_client.
    apply reach_empty. }
  assert (Hr5 : st5.1 =
    (add_processing Sample.rng
       (NewProcessing.mk 1 (Some running) (Some "42") None)
       (add_processing Sample.rng (NewProcessing.mk 1 None None None)
          st3.1 0%nat).1.2 0%nat).1.2)
    by (vm_compute; reflexivity).
  split; [exact Hreach3|].
  split; [vm_compute; eauto|].
  split; [vm_compute; reflexivity|].
  split; [vm_compute; discriminate|].
  split.
  { rewrite Hr5.
    by do 2 apply (reach_add_processing Sample.rng Sample._randbelow
                     Sample.uuid4). }
  split; [vm_compute; eauto|].
  split; [vm_compute; reflexivity|].
  vm_compute. discriminate.
Qed.

Lemma status_of_fresh (db : Store) :
  wf db -> status_of db (next_pk (calcjobs db)) = ∅.
Proof.
  intros [_ _ H3 _ _ _]. unfold status_of.
  apply map_empty. intros j. apply map_lookup_filter_None.
  right. intros p Hp. simpl. intros Heq.
  pose proof (H3 j p Hp) as Hsome. rewrite Heq in Hsome.
  rewrite next_pk_fresh in Hsome. by destruct Hsome.
Qed.

Lemma add_calcjob_inr
    (rng : Type) (uuid4 : rng -> string * rng)
    (new : NewCalcJob.t) (db db1 : Store) (g g' : rng) (k : Z) :
  add_calcjob rng uuid4 new db g = (inr k, db1, g') ->
  k = next_pk (calcjobs db)
  /\ exists row,
       db1 = mkStore (clients db) (codes db) (<[k := row]> (calcjobs db))
                     (statuses db) (data db).
Proof.
  unfold add_calcjob.
  destruct (match NewCalcJob.uuid new with
            | Some u => (u, g)
            | None => uuid4 g
            end) as [u g1].
  case_bool_decide; [discriminate|].
  intros [= <- <- <-]. split; [done|]. eauto.
Qed.

Lemma outputs_stored_frame
    (rng : Type) (g : rng) (k : Z) (outputs : list NewOutput.t) (db : Store) :
  let db' :=
    foldl (fun d o =>
             (add_datanode rng (NewDataNode.mk (NewOutput.attributes o) k)
                           d g).1.2)
          db outputs in
  statuses db' = statuses db /\ calcjobs db' = calcjobs db
  /\ codes db' = codes db /\ clients db' = clients db.
Proof.
  revert db. induction outputs as [|o outputs IH]; intros db; [done|].
  cbn [foldl]. cbv zeta in IH.
  destruct (IH (add_datanode rng
                  (NewDataNode.mk (NewOutput.attributes o) k) db g).1.2)
    as (-> & -> & -> & ->).
  unfold add_datanode. by case_bool_decide.
Qed.

(** C3, as the code has it. In a database reached through the session's
    writes, a calcjob is stored with a status exactly when one is passed
    to its constructor: built with none, it is stored with no status row
    referencing it and the status table is as before; built with
    [status=s], it is stored together with one status row, which carries
    the step, job id and exception of [s] ([created] when no step was
    given), and that row is the only one referencing it. A status can
    also be stored by a write of its own, which is refused when the
    calcjob it names is not stored and accepted when it is, whether or
    not a status row references that calcjob already. Every stored
    status references a stored calcjob. Deleting a stored calcjob that at
    most one status row references succeeds and leaves neither the
    calcjob nor a status that references it. *)
Theorem status_only_when_given
    (rng : Type) (_randbelow : nat -> rng -> nat * rng)
    (uuid4 : rng -> string * rng) (db : Store) :
  reachable rng _randbelow uuid4 db ->
  (forall new g k db' g',
     add_calcjob rng uuid4 new db g = (inr k, db', g') ->
     is_Some (calcjobs db' !! k)
     /\ status_of db' k = ∅
     /\ statuses db' = statuses db)
  /\ (forall new outputs g k db' g',
        add_calcjob_with rng uuid4 new None outputs db g = (inr k, db', g') ->
        is_Some (calcjobs db' !! k)
        /\ status_of db' k = ∅
        /\ statuses db' = statuses db)
  /\ (forall new s outputs g k db' g',
        add_calcjob_with rng uuid4 new (Some s) outputs db g
        = (inr k, db', g') ->
        is_Some (calcjobs db' !! k)
        /\ exists j p,
             status_of db' k = {[ j := p ]}
             /\ statuses db !! j = None
             /\ calcjob_pk p = k
             /\ step p = default created (NewStatus.step s)
             /\ job_id p = NewStatus.job_id s
             /\ exception p = NewStatus.exception s)
  /\ (forall new g,
        calcjobs db !! NewProcessing.calcjob_pk new = None ->
        add_processing rng new db g
        = (inl (IntegrityError ForeignKeyConstraint), db, g))
  /\ (forall new g,
        is_Some (calcjobs db !! NewProcessing.calcjob_pk new) ->
        exists k db' p,
          add_processing rng new db g = (inr k, db', g)
          /\ status_of db' (NewProcessing.calcjob_pk new) !! k = Some p
          /\ step p = default created (NewProcessing.step new))
  /\ (forall j p, statuses db !! j = Some p ->
                  is_Some (calcjobs db !! calcjob_pk p))
  /\ (forall k c,
        calcjobs db !! k = Some c -> (size (status_of db k) <= 1)%nat ->
        exists db', delete_calcjob k db = (inr tt, db')
                    /\ calcjobs db' !! k = None
                    /\ status_of db' k = ∅).
Proof.
  intros Hreach. apply reachable_wf in Hreach as Hwf.
  pose proof (status_of_fresh db Hwf) as Hfresh.
  destruct Hwf as [_ _ H3 _ _ _].
  split; [|split; [|split; [|split; [|split; [|split]]]]].
  - intros new g k db' g' Hadd.
    apply add_calcjob_inr in Hadd as (-> & row & ->). simpl.
    split; [rewrite lookup_insert_eq; eauto|]. split; [exact Hfresh|done].
  - intros new outputs g k db' g' Hadd. unfold add_calcjob_with in Hadd.
    destruct (add_calcjob rng uuid4 new db g) as [[[e|k1] db1] g1] eqn:Hcj;
      [discriminate|].
    injection Hadd as <- <- <-.
    apply add_calcjob_inr in Hcj as (-> & row & ->).
    destruct (outputs_stored_frame rng g1 (next_pk (calcjobs db)) outputs
                (mkStore (clients db) (codes db)
                   (<[next_pk (calcjobs db) := row]> (calcjobs db))
                   (statuses db) (data db)))
      as (Hst & Hcj & _).
    rewrite Hcj. unfold status_of. rewrite Hst. simpl.
    split; [rewrite lookup_insert_eq; eauto|]. split; [exact Hfresh|done].
  - intros new s outputs g k db' g' Hadd. unfold add_calcjob_with in Hadd.
    destruct (add_calcjob rng uuid4 new db g) as [[[e|k1] db1] g1] eqn:Hcj;
      [discriminate|].
    injection Hadd as <- <- <-.
    apply add_calcjob_inr in Hcj as (-> & row & ->).
    set (k := next_pk (calcjobs db)) in *.
    set (db1 := mkStore (clients db) (codes db) (<[k := row]> (calcjobs db))
                  (statuses db) (data db)).
    set (p := mkProcessing (Some (next_pk (statuses db))) k
                (default created (NewStatus.step s)) (NewStatus.job_id s)
                (NewStatus.exception s)).
    assert (Hproc : (add_processing rng
                       (NewProcessing.mk k (NewStatus.step s)
                          (NewStatus.job_id s) (NewStatus.exception s))
                       db1 g1).1.2
                    = mkStore (clients db) (codes db)
                        (<[k := row]> (calcjobs db))
                        (<[next_pk (statuses db) := p]> (statuses db))
                        (data db)).
    { unfold add_processing. simpl.
      rewrite bool_decide_eq_false_2; [done|].
      by rewrite lookup_insert_eq. }
    rewrite Hproc.
    match goal with
    | |- context [foldl ?f ?d outputs] =>
        destruct (outputs_stored_frame rng g1 k outputs d) as (Hst & Hcj & _)
    end.
    rewrite Hcj. unfold status_of. rewrite Hst. simpl.
    split; [rewrite lookup_insert_eq; eauto|].
    exists (next_pk (statuses db)), p.
    split; [|split; [apply next_pk_fresh|done]].
    rewrite map_filter_insert_True by done.
    fold (status_of db k). rewrite Hfresh. apply insert_empty.
  - intros new g Hnone. unfold add_processing.
    by rewrite bool_decide_eq_true_2.
  - intros new g [c Hc]. unfold add_processing.
    rewrite bool_decide_eq_false_2 by congruence.
    do 3 eexists. split; [reflexivity|]. unfold status_of. simpl.
    split.
    + apply map_lookup_filter_Some. split; [apply lookup_insert_eq|done].
    + reflexivity.
  - exact H3.
  - intros k c Hc Hsize. exists (without_calcjob k db).
    split; [by eapply delete_calcjob_ok|].
    destruct (without_calcjob_spec db k) as (H1 & H2 & _). done.
Qed.

Lemma status_only_when_given_witness :
  let db1 := (add_client Sample.rng Sample._randbelow
                (Sample.a_client (Some "daint") posix "/home/u")
                empty_store 0%nat).1.2 in
  let db2 := (add_code Sample.rng Sample._randbelow
                (Sample.a_code (Some "pw.x") 1) db1 0%nat).1.2 in
  let r := add_calcjob Sample.rng Sample.uuid4 (Sample.a_calcjob None 1)
             db2 0%nat in
  let r' := add_calcjob_with Sample.rng Sample.uuid4 (Sample.a_calcjob None 1)
              (Some (NewStatus.mk None None None)) [NewOutput.mk None]
              db2 0%nat in
  reachable Sample.rng Sample._randbelow Sample.uuid4 db2
  /\ r.1.1 = inr 1
  /\ status_of r.1.2 1 = ∅
  /\ r'.1.1 = inr 1
  /\ exists j p, status_of r'.1.2 1 = {[ j := p ]} /\ step p = created.
Proof.
  intros db1 db2 r r'.
  assert (Hreach : reachable Sample.rng Sample._randbelow Sample.uuid4 db2).
  { apply reach_add_code, reach_add_client, reach_empty. }
  destruct (status_only_when_given Sample.rng Sample._randbelow Sample.uuid4
              db2 Hreach) as (Hnone & _ & Hgiven & _).
  split; [exact Hreach|]. split; [vm_compute; reflexivity|].
  split.
  { apply (Hnone (Sample.a_calcjob None 1) 0%nat 1 r.1.2 r.2).
    vm_compute. reflexivity. }
  split; [vm_compute; reflexivity|].
  destruct (Hgiven (Sample.a_calcjob None 1) (NewStatus.mk None None None)
              [NewOutput.mk None] 0%nat 1 r'.1.2 r'.2)
    as (_ & j & p & Hst & _ & _ & Hstep & _).
  { vm_compute. reflexivity. }
  exists j, p. split; [exact Hst|exact Hstep].
Defined.

(** ** Rendering *)

Lemma render_chunks_unresolved (b : gmap string Template.binding)
    (cs : list Template.chunk) (e : string) :
  Template.Ref e ∈ cs -> Template.resolve b e = None ->
  Template.render_chunks b cs = None.
Proof.
  intros Hin Hres. induction cs as [|c cs IH]; [by apply elem_of_nil in Hin|].
  apply elem_of_cons in Hin as [<-|Hin].
  - simpl. by rewrite Hres.
  - specialize (IH Hin). destruct c as [t|e']; simpl; rewrite IH; [done|].
    by destruct (Template.resolve b e').
Qed.

Lemma render_keeps_store (b : gmap string Template.binding)
    (script : string) (db : Store) :
  (Template.render b script db).2 = db.
Proof.
  unfold Template.render.
  destruct (forallb _ _); [|done].
  by destruct (Template.render_chunks _ _).
Qed.

(** C7. Rendering a script needs the three bindings [client], [code] and
    [calc] (the specification's profile, template and invocation). When
    one of the three is missing from the bindings, or the script refers to
    a binding or field that the bindings do not have, rendering fails with
    [TemplateRenderError] and hands the database back as it was, so the
    step of every stored status is what it was before. *)
Theorem render_missing_binding_fails
    (b : gmap string Template.binding) (script : string) (db : Store) :
  (exists n, n ∈ Template.required /\ b !! n = None)
  \/ (exists e, Template.Ref e ∈ Template.scan false EmptyString script
                /\ Template.resolve b e = None) ->
  Template.render b script db = (inl Template.MkTemplateRenderError, db)
  /\ forall k, step <$> statuses (Template.render b script db).2 !! k
               = step <$> statuses db !! k.
Proof.
  intros H. split; [|intros k; by rewrite render_keeps_store].
  unfold Template.render. destruct H as [(n & Hn & Hnone)|(e & He & Hres)].
  - assert (forallb (fun n => bool_decide (is_Some (b !! n)))
                    Template.required = false) as ->; [|done].
    apply not_true_is_false. intros Hall.
    rewrite forallb_forall in Hall.
    apply list_elem_of_In in Hn. specialize (Hall n Hn).
    apply bool_decide_eq_true in Hall. rewrite Hnone in Hall.
    by destruct Hall.
  - destruct (forallb _ _); [|done].
    by rewrite (render_chunks_unresolved b _ e He Hres).
Qed.

Lemma render_missing_binding_fails_witness :
  let b : gmap string Template.binding :=
    <["client" := Template.mkBinding "Client(1, daint)"
                    {[ "work_dir" := "/home/u" ]}]>
    (<["code" := Template.mkBinding "Code(1, pw.x)" ∅]> ∅) in
  let p := mkProcessing (Some 1) 1 submitting None None in
  let db := mkStore ∅ ∅ ∅ {[ 1 := p ]} ∅ in
  b !! "calc" = None
  /\ Template.render b "cd {{ client.work_dir }}/{{ calc.uuid }}" db
     = (inl Template.MkTemplateRenderError, db).
Proof.
  intros b p db. split; [reflexivity|].
  apply (render_missing_binding_fails b _ db).
  left. exists "calc". split; [|reflexivity].
  unfold Template.required. set_solver.
Defined.

(** * Further properties *)

(** ** Equality is an equivalence *)

(** [==] on mapped objects is reflexive, symmetric and transitive. *)
Theorem eq_equivalence (e1 e2 e3 : entity) :
  __eq__ e1 (Obj e1) = true
  /\ __eq__ e1 (Obj e2) = __eq__ e2 (Obj e1)
  /\ (__eq__ e1 (Obj e2) = true -> __eq__ e2 (Obj e3) = true ->
      __eq__ e1 (Obj e3) = true).
Proof.
  split; [by apply eq_Obj_iff|]. split.
  - apply eq_true_iff_eq. rewrite !eq_Obj_iff. intuition congruence.
  - rewrite !eq_Obj_iff. intuition congruence.
Qed.

(** ** The hash of a stored object *)

Lemma hash_int_small (n : Z) : 0 <= n < 2 ^ 61 - 1 -> hash_int n = n.
Proof.
  intros Hn. unfold hash_int.
  rewrite Z.abs_eq, Z.mod_small by lia.
  destruct (Z.eq_dec n 0) as [->|Hne]; [reflexivity|].
  rewrite Z.sgn_pos by lia.
  destruct (Z.eqb_spec (1 * n) (-1)); lia.
Qed.

Lemma hash_int_range (n : Z) :
  hash_int n <> -1 /\ - (2 ^ 61 - 1) < hash_int n < 2 ^ 61 - 1.
Proof.
  unfold hash_int.
  pose proof (Z.mod_pos_bound (Z.abs n) (2 ^ 61 - 1) ltac:(lia)) as Hm.
  set (m := Z.abs n mod (2 ^ 61 - 1)) in *.
  destruct (Z.eqb_spec (Z.sgn n * m) (-1)) as [E|E]; [lia|].
  split; [exact E|].
  destruct (Z.sgn_spec n) as [[_ ->]|[[_ ->]|[_ ->]]]; lia.
Qed.

(** An object whose primary key [k] is set hashes to a value that is
    never [-1] and lies strictly between [-(2^61 - 1)] and [2^61 - 1];
    when [0 <= k < 2^61 - 1] the hash is [k] itself, so two objects with
    different keys in that range hash differently. *)
Theorem hash_of_keyed_object (hash_None : Z) (e : entity) (k : Z) :
  pk e = Some k ->
  __hash__ hash_None e <> -1
  /\ - (2 ^ 61 - 1) < __hash__ hash_None e < 2 ^ 61 - 1
  /\ (0 <= k < 2 ^ 61 - 1 -> __hash__ hash_None e = k)
  /\ (forall e' k', pk e' = Some k' ->
        0 <= k < 2 ^ 61 - 1 -> 0 <= k' < 2 ^ 61 - 1 -> k <> k' ->
        __hash__ hash_None e <> __hash__ hash_None e').
Proof.
  intros Hk. unfold __hash__. rewrite Hk. simpl.
  pose proof (hash_int_range k) as [Hne Hr].
  split; [exact Hne|]. split; [exact Hr|].
  split; [apply hash_int_small|].
  intros e' k' Hk' Hrk Hrk' Hdiff. rewrite Hk'. simpl.
  rewrite !hash_int_small by done. exact Hdiff.
Qed.

Lemma hash_of_keyed_object_witness :
  let e := ECalcJob (mkCalcJob (Some 7) "" "abc-123" 1 [] [] []) in
  pk e = Some 7 /\ __hash__ 0 e = 7.
Proof.
  intros e. split; [reflexivity|].
  apply (hash_of_keyed_object 0 e 7 eq_refl). lia.
Defined.

(** ** String forms *)

Lemma pretty_N_go_chars (x : N) (s : string) :
  all_chars numeral_char s = true ->
  all_chars numeral_char (pretty_N_go x s) = true.
Proof.
  revert s. induction (N.lt_wf_0 x) as [x _ IH]. intros s Hs.
  destruct (decide (x = 0)%N) as [->|Hx]; [by rewrite pretty_N_go_0|].
  rewrite pretty_N_go_step by lia.
  apply IH; [apply N.div_lt; lia|].
  simpl. rewrite Hs, andb_true_r.
  unfold pretty_N_char. by repeat case_match.
Qed.

Lemma pretty_Z_chars (n : Z) : all_chars numeral_char (pretty n) = true.
Proof.
  assert (HN : forall x : N, all_chars numeral_char (pretty x) = true).
  { intros x. unfold pretty, pretty_N. case_decide; [done|].
    by apply pretty_N_go_chars. }
  destruct n as [|q|q]; [done|apply HN|].
  unfold pretty, pretty_Z. simpl. apply HN.
Qed.

(** Two strings cut at the first occurrence of a delimiter that neither
    head contains have the same head and the same rest. *)
Lemma cut_at_delimiter (P : ascii -> bool) (d : ascii)
    (s1 s2 r1 r2 : string) :
  P d = false ->
  all_chars P s1 = true -> all_chars P s2 = true ->
  s1 +:+ String d r1 = s2 +:+ String d r2 -> s1 = s2 /\ r1 = r2.
Proof.
  intros Hd. revert s2.
  induction s1 as [|c s1 IH]; intros [|c' s2] H1 H2 Heq; simpl in *.
  - by injection Heq as ->.
  - injection Heq as <- _. apply andb_prop in H2 as [H2 _]. congruence.
  - injection Heq as -> _. apply andb_prop in H1 as [H1 _]. congruence.
  - injection Heq as <- Heq.
    apply andb_prop in H1 as [_ H1]. apply andb_prop in H2 as [_ H2].
    destruct (IH s2 H1 H2 Heq) as [-> ->]. done.
Qed.

Lemma format_pk_chars (x : option Z) :
  all_chars (fun c => negb (Ascii.eqb c ",") && negb (Ascii.eqb c ")"))
            (format_pk x) = true.
Proof.
  destruct x as [n|]; [|reflexivity]. simpl.
  generalize (pretty_Z_chars n). generalize (pretty n).
  induction s as [|c s IH]; simpl; [done|].
  intros [Hc Hs]%andb_prop. rewrite (IH Hs), andb_true_r.
  unfold numeral_char in Hc.
  destruct (Ascii.eqb_spec c ",") as [->|_]; [done|].
  destruct (Ascii.eqb_spec c ")") as [->|_]; [done|]. done.
Qed.

Lemma format_pk_inj (x y : option Z) : format_pk x = format_pk y -> x = y.
Proof.
  destruct x as [n|], y as [m|]; simpl; intros Heq; [| | |done].
  - f_equal. by apply (inj pretty).
  - pose proof (pretty_Z_chars n) as H. by rewrite Heq in H.
  - pose proof (pretty_Z_chars m) as H. by rewrite <- Heq in H.
Qed.

Lemma name_cut (c1 c2 : class_t) (r1 r2 : string) :
  __name__ c1 +:+ String "(" r1 = __name__ c2 +:+ String "(" r2 ->
  c1 = c2 /\ r1 = r2.
Proof.
  intros Heq.
  destruct (cut_at_delimiter (fun c => negb (Ascii.eqb c "(")) "("
              (__name__ c1) (__name__ c2) r1 r2) as [Hn Hr];
    [done|by destruct c1|by destruct c2|done|].
  split; [|done]. by destruct c1, c2.
Qed.

(** Objects that print alike compare equal: when [str] gives the same text
    for two mapped objects, they are of the same class and have the same
    primary key, whatever their labels and other columns hold. *)
Theorem str_identifies_object (e1 e2 : entity) :
  __str__ e1 = __str__ e2 ->
  class_of e1 = class_of e2
  /\ pk e1 = pk e2
  /\ __eq__ e1 (Obj e2) = true.
Proof.
  intros Heq.
  assert (H : class_of e1 = class_of e2 /\ pk e1 = pk e2);
    [|split; [apply H|split; [apply H|by apply eq_Obj_iff]]].
  pose (P := fun c => negb (Ascii.eqb c ",") && negb (Ascii.eqb c ")")).
  assert (Hcut : forall d x y r1 r2, P d = false ->
            format_pk x +:+ String d r1 = format_pk y +:+ String d r2 ->
            x = y).
  { intros d x y r1 r2 Hd Hxy. apply format_pk_inj.
    by destruct (cut_at_delimiter P d _ _ r1 r2 Hd
                   (format_pk_chars x) (format_pk_chars y) Hxy). }
  destruct e1, e2; unfold __str__, Base__str__ in Heq;
    apply name_cut in Heq as [Hcls Hrest]; try discriminate Hcls;
    (split; [done|]); simpl in *;
    (eapply Hcut; [|exact Hrest]; reflexivity).
Qed.

Lemma str_identifies_object_witness :
  let a := ECalcJob (mkCalcJob (Some 3) "relax" "abc-123" 1 [] [] []) in
  let b := ECalcJob (mkCalcJob (Some 3) "scf" "def-456" 2 [] [] ["*.out"]) in
  __str__ a = __str__ b /\ __eq__ a (Obj b) = true.
Proof.
  intros a b. split; [reflexivity|].
  apply (str_identifies_object a b). reflexivity.
Defined.

(** ** Storing rows *)



(** Storing a code under an explicit label has three outcomes. If a stored
    code of the same client has the label, the write is refused by the
    unique constraint; if not and the client is not stored, it is refused
    by the foreign key; in both cases the database is as before.
    Otherwise the code is stored under a key greater than every key in
    use, with an empty upload manifest where none was given, and nothing
    else changes. A label that only codes of other clients carry does not
    stand in the way. *)
Theorem add_code_outcome
    (rng : Type) (_randbelow : nat -> rng -> nat * rng)
    (new : NewCode.t) (db : Store) (g : rng) (l : string) :
  NewCode.label new = Some l ->
  ((exists k c, codes db !! k = Some c
                /\ client_pk c = NewCode.client_pk new /\ code_label c = l)
   /\ add_code rng _randbelow new db g
      = (inl (IntegrityError UniqueConstraint), db, g))
  \/ ((forall k c, codes db !! k = Some c ->
                   client_pk c = NewCode.client_pk new -> code_label c <> l)
      /\ clients db !! NewCode.client_pk new = None
      /\ add_code rng _randbelow new db g
         = (inl (IntegrityError ForeignKeyConstraint), db, g))
  \/ ((forall k c, codes db !! k = Some c ->
                   client_pk c = NewCode.client_pk new -> code_label c <> l)
      /\ is_Some (clients db !! NewCode.client_pk new)
      /\ exists k db' row,
           add_code rng _randbelow new db g = (inr k, db', g)
           /\ (forall j, is_Some (codes db !! j) -> j < k)
           /\ codes db' !! k = Some row
           /\ code_pk_ row = Some k
           /\ code_label row = l
           /\ client_pk row = NewCode.client_pk new
           /\ script row = NewCode.script new
           /\ upload_paths row = default [] (NewCode.upload_paths new)
           /\ (forall j, j <> k -> codes db' !! j = codes db !! j)
           /\ clients db' = clients db /\ calcjobs db' = calcjobs db
           /\ statuses db' = statuses db /\ data db' = data db).
Proof.
  intros Hl. unfold add_code, label_or_default. rewrite Hl.
  destruct (code_label_taken db (NewCode.client_pk new) l) eqn:Htaken.
  { left. split; [by apply code_label_taken_true|done]. }
  right.
  assert (Hfree : forall k c, codes db !! k = Some c ->
            client_pk c = NewCode.client_pk new -> code_label c <> l).
  { intros k c Hc Hp Hlab.
    assert (code_label_taken db (NewCode.client_pk new) l = true);
      [|congruence].
    apply code_label_taken_true. eauto. }
  case_bool_decide as Hfk.
  - left. done.
  - right. split; [exact Hfree|].
    split; [by destruct (clients db !! NewCode.client_pk new); eauto|].
    do 3 eexists. split; [reflexivity|]. simpl.
    split; [apply next_pk_above|].
    split; [apply lookup_insert_eq|].
    do 5 (split; [reflexivity|]).
    split; [intros j Hj; by rewrite lookup_insert_ne|done].
Qed.

Lemma add_code_outcome_witness :
  let db := mkStore
    {[ 1 := mkClient (Some 1) "daint" "" "" "" "" "" "/home/u" posix 5;
       2 := mkClient (Some 2) "eiger" "" "" "" "" "" "/scratch/u" posix 5 ]}
    {[ 1 := mkCode (Some 1) "pw.x" 1 "#!/bin/bash" [] ]} ∅ ∅ ∅ in
  let new := Sample.a_code (Some "pw.x") 2 in
  NewCode.label new = Some "pw.x"
  /\ (code_label <$> codes db !! 1) = Some "pw.x"
  /\ exists k db', add_code Sample.rng Sample._randbelow new db 0%nat
                   = (inr k, db', 0%nat)
                   /\ (code_label <$> codes db' !! k) = Some "pw.x".
Proof.
  intros db new. split; [reflexivity|]. split; [reflexivity|].
  destruct (add_code_outcome Sample.rng Sample._randbelow new db
              0%nat "pw.x" eq_refl)
    as [[_ Hadd]|[(_ & _ & Hadd)
                 |(_ & _ & k & db' & row & Hadd & _ & Hrow & _ & Hlab & _)]].
  - vm_compute in Hadd. discriminate Hadd.
  - vm_compute in Hadd. discriminate Hadd.
  - exists k, db'. split; [exact Hadd|]. by rewrite Hrow, <- Hlab.
Defined.


(** ** The owners of a calcjob *)

(** In a database reached through the session's writes every stored
    calcjob has its code and the code its client, so the remote path of a
    stored calcjob is always defined; the same holds for the calcjob of
    every stored status and of every stored output. *)
Theorem remote_path_defined
    (rng : Type) (_randbelow : nat -> rng -> nat * rng)
    (uuid4 : rng -> string * rng) (db : Store) (k : Z) (c : CalcJob) :
  reachable rng _randbelow uuid4 db ->
  calcjobs db !! k = Some c ->
  (exists code client,
     codes db !! code_pk c = Some code
     /\ clients db !! client_pk code = Some client
     /\ remote_path db c = Some (work_path client // "workflows" // uuid c))
  /\ (forall j p, statuses db !! j = Some p ->
        exists c', calcjobs db !! calcjob_pk p = Some c'
                   /\ is_Some (remote_path db c'))
  /\ (forall j d, data db !! j = Some d ->
        exists c', calcjobs db !! creator_pk d = Some c'
                   /\ is_Some (remote_path db c')).
Proof.
  intros Hreach Hc. apply reachable_wf in Hreach as [H1 H2 H3 H4 _ _].
  assert (Hpath : forall j c', calcjobs db !! j = Some c' ->
            exists code client,
              codes db !! code_pk c' = Some code
              /\ clients db !! client_pk code = Some client
              /\ remote_path db c'
                 = Some (work_path client // "workflows" // uuid c')).
  { intros j c' Hc'. destruct (H2 j c' Hc') as [code Hcode].
    destruct (H1 _ code Hcode) as [client Hclient].
    exists code, client. split; [done|]. split; [done|].
    unfold remote_path. rewrite Hcode. simpl. by rewrite Hclient. }
  split; [by eapply Hpath|]. split.
  - intros j p Hp. destruct (H3 j p Hp) as [c' Hc'].
    exists c'. split; [done|].
    destruct (Hpath _ c' Hc') as (? & ? & _ & _ & ->). eauto.
  - intros j d Hd. destruct (H4 j d Hd) as [c' Hc'].
    exists c'. split; [done|].
    destruct (Hpath _ c' Hc') as (? & ? & _ & _ & ->). eauto.
Qed.

Lemma remote_path_defined_witness :
  let db1 := (add_client Sample.rng Sample._randbelow
                (Sample.a_client (Some "daint") posix "/home/u")
                empty_store 0%nat).1.2 in
  let db2 := (add_code Sample.rng Sample._randbelow
                (Sample.a_code (Some "pw.x") 1) db1 0%nat).1.2 in
  let db3 := (add_calcjob Sample.rng Sample.uuid4
                (Sample.a_calcjob (Some "abc-123") 1) db2 0%nat).1.2 in
  reachable Sample.rng Sample._randbelow Sample.uuid4 db3
  /\ exists c, calcjobs db3 !! 1 = Some c /\ is_Some (remote_path db3 c).
Proof.
  intros db1 db2 db3.
  assert (Hreach : reachable Sample.rng Sample._randbelow Sample.uuid4 db3).
  { apply reach_add_calcjob, reach_add_code, reach_add_client, reach_empty. }
  split; [exact Hreach|].
  pose (c := mkCalcJob (Some 1) "" "abc-123" 1 [] [] []).
  assert (Hc : calcjobs db3 !! 1 = Some c) by (vm_compute; reflexivity).
  exists c. split; [exact Hc|].
  destruct (remote_path_defined Sample.rng Sample._randbelow Sample.uuid4
              db3 1 c Hreach Hc) as [(code & client & _ & _ & Hrp) _].
  rewrite Hrp. eauto.
Defined.

(** ** More on remote paths *)

Lemma remote_path_Some (db : Store) (self : CalcJob) (p : pathlib.PurePath) :
  remote_path db self = Some p ->
  exists client, p = work_path client // "workflows" // uuid self.
Proof.
  unfold remote_path. intros H.
  destruct (codes db !! code_pk self) as [code|]; [|done]. simpl in H.
  destruct (clients db !! client_pk code) as [client|]; [|done]. simpl in H.
  exists client. congruence.
Qed.

(** When do two calcjobs share a remote folder? With plain [uuid]s, if
    the two remote paths compare equal as paths, they are of the same
    flavour and the [uuid]s are equal after that flavour's case folding.
    So under posix clients, calcjobs with different [uuid]s never have
    equal remote paths; under a windows client, two calcjobs of one code
    whose [uuid]s differ only in the case of letters do. *)
Theorem remote_path_equal_uuid
    (db : Store) (c1 c2 : CalcJob) (p1 p2 : pathlib.PurePath) :
  plain (uuid c1) = true -> plain (uuid c2) = true ->
  remote_path db c1 = Some p1 -> remote_path db c2 = Some p2 ->
  (path_eq p1 p2 = true ->
   pathlib._flavour p1 = pathlib._flavour p2
   /\ pathlib.casefold (pathlib.flavour_of (pathlib._flavour p1)) (uuid c1)
      = pathlib.casefold (pathlib.flavour_of (pathlib._flavour p1)) (uuid c2))
  /\ (pathlib._flavour p1 = pathlib.PosixFlavour ->
      uuid c1 <> uuid c2 -> path_eq p1 p2 = false)
  /\ (code_pk c1 = code_pk c2 ->
      pathlib._flavour p1 = pathlib.WindowsFlavour ->
      pathlib.lower (uuid c1) = pathlib.lower (uuid c2) ->
      path_eq p1 p2 = true).
Proof.
  intros Hp1 Hp2 H1 H2.
  assert (Hsame : code_pk c1 = code_pk c2 ->
            exists client,
              p1 = work_path client // "workflows" // uuid c1
              /\ p2 = work_path client // "workflows" // uuid c2).
  { intros Hcode. unfold remote_path in H1, H2. rewrite <- Hcode in H2.
    destruct (codes db !! code_pk c1) as [code|]; [|done]. simpl in H1, H2.
    destruct (clients db !! client_pk code) as [client|]; [|done].
    simpl in H1, H2. exists client. split; congruence. }
  apply remote_path_Some in H1 as [cl1 ->].
  apply remote_path_Some in H2 as [cl2 ->].
  assert (Hfirst :
    path_eq (work_path cl1 // "workflows" // uuid c1)
            (work_path cl2 // "workflows" // uuid c2) = true ->
    pathlib._flavour (work_path cl1 // "workflows" // uuid c1)
    = pathlib._flavour (work_path cl2 // "workflows" // uuid c2)
    /\ pathlib.casefold
         (pathlib.flavour_of
            (pathlib._flavour (work_path cl1 // "workflows" // uuid c1)))
         (uuid c1)
       = pathlib.casefold
           (pathlib.flavour_of
              (pathlib._flavour (work_path cl1 // "workflows" // uuid c1)))
           (uuid c2)).
  { rewrite (truediv_plain _ (uuid c1) Hp1), (truediv_plain _ (uuid c2) Hp2).
    unfold path_eq. simpl.
    intros [Hparts Hk]%andb_prop.
    apply bool_decide_eq_true in Hparts, Hk.
    split; [exact Hk|]. rewrite <- Hk in Hparts.
    rewrite !fmap_app in Hparts. simpl in Hparts.
    by apply app_inj_tail in Hparts as [_ Hu]. }
  split; [exact Hfirst|]. split.
  - intros Hposix Hne.
    destruct (path_eq _ _) eqn:E; [|done].
    destruct (Hfirst eq_refl) as [_ Hu]. rewrite Hposix in Hu.
    simpl in Hu. by destruct Hne.
  - intros Hcode Hwin Hlow.
    destruct (Hsame Hcode) as (client & E1 & E2).
    rewrite E1, E2. rewrite E1 in Hwin.
    rewrite (truediv_plain _ (uuid c1) Hp1) in Hwin |- *.
    rewrite (truediv_plain _ (uuid c2) Hp2).
    simpl in Hwin. unfold path_eq. simpl. rewrite Hwin. simpl.
    rewrite !fmap_app. simpl. rewrite Hlow.
    rewrite bool_decide_eq_true_2 by done. done.
Qed.

Lemma remote_path_equal_uuid_witness :
  let win := mkClient (Some 1) "hpc" "" "" "" "" "" "C:\Users\u" windows 5 in
  let code1 := mkCode (Some 1) "a" 1 "" [] in
  let calc1 := mkCalcJob (Some 1) "" "ABC" 1 [] [] [] in
  let calc2 := mkCalcJob (Some 2) "" "abc" 1 [] [] [] in
  let db := mkStore {[ 1 := win ]} {[ 1 := code1 ]}
                    {[ 1 := calc1; 2 := calc2 ]} ∅ ∅ in
  uuid calc1 <> uuid calc2
  /\ path_eq (work_path win // "workflows" // "ABC")
             (work_path win // "workflows" // "abc") = true.
Proof.
  intros win code1 calc1 calc2 db. split; [discriminate|].
  apply (remote_path_equal_uuid db calc1 calc2
           (work_path win // "workflows" // "ABC")
           (work_path win // "workflows" // "abc")
           eq_refl eq_refl eq_refl eq_refl); reflexivity.
Defined.

Lemma posix_parse_drv (s : string) :
  (pathlib.parse_parts pathlib._posix_flavour s).1.1 = EmptyString.
Proof.
  unfold pathlib.parse_parts.
  destruct (pathlib.nonempty s); [|done]. simpl.
  assert (H : (pathlib.posix_splitroot s).1.1 = EmptyString).
  { unfold pathlib.posix_splitroot. destruct s as [|c s']; [done|].
    destruct (Ascii.eqb c pathlib.slash); [|done].
    by destruct (Nat.eqb _ _). }
  destruct (pathlib.posix_splitroot s) as [[drv root] rel]. simpl in H.
  subst drv. simpl. by destruct (pathlib.nonempty root).
Qed.

Lemma posix_parse_rooted (rest : string) :
  pathlib.nonempty
    (pathlib.parse_parts pathlib._posix_flavour (String "/" rest)).1.2 = true.
Proof.
  unfold pathlib.parse_parts. simpl.
  destruct (Nat.eqb _ _); reflexivity.
Qed.

Lemma posix_path_drv (s : string) :
  pathlib._flavour (pathlib.PurePosixPath s) = pathlib.PosixFlavour
  /\ pathlib._drv (pathlib.PurePosixPath s) = EmptyString.
Proof.
  unfold pathlib.PurePosixPath, pathlib._from_parts.
  pose proof (posix_parse_drv s) as Hdrv. simpl pathlib.flavour_of.
  destruct (pathlib.parse_parts pathlib._posix_flavour s) as [[drv root] parts].
  done.
Qed.

Lemma posix_truediv_rooted (p : pathlib.PurePath) (rest : string) :
  pathlib._flavour p = pathlib.PosixFlavour ->
  pathlib._drv p = EmptyString ->
  p // String "/" rest = pathlib.PurePosixPath (String "/" rest).
Proof.
  destruct p as [k drv root parts]. simpl. intros -> ->.
  unfold pathlib.truediv, pathlib.PurePosixPath, pathlib._from_parts.
  simpl pathlib._flavour. simpl pathlib.flavour_of.
  pose proof (posix_parse_drv (String "/" rest)) as Hdrv2.
  pose proof (posix_parse_rooted rest) as Hroot2.
  destruct (pathlib.parse_parts pathlib._posix_flavour (String "/" rest))
    as [[drv2 root2] parts2]. simpl in Hdrv2, Hroot2. subst drv2.
  unfold pathlib.join_parsed_parts. rewrite Hroot2. reflexivity.
Qed.

(** An identifier that starts with a slash takes the remote folder out of
    the working directory: for a posix client and a [uuid] beginning with
    ["/"], the remote path is the [uuid] read as a path, and nothing of
    the working directory or of ["workflows"] is left in it. *)
Theorem remote_path_absolute_uuid
    (db : Store) (self : CalcJob) (code : Code) (client : Client)
    (rest : string) :
  codes db !! code_pk self = Some code ->
  clients db !! client_pk code = Some client ->
  fsystem client = posix ->
  uuid self = String "/" rest ->
  remote_path db self = Some (pathlib.PurePosixPath (uuid self)).
Proof.
  intros Hcode Hclient Hfs Hu.
  unfold remote_path. rewrite Hcode. simpl. rewrite Hclient. simpl.
  f_equal. unfold work_path. rewrite Hfs, Hu. simpl bool_decide. cbv iota.
  destruct (posix_path_drv (work_dir client)) as [Hk Hdrv].
  apply posix_truediv_rooted.
  - by rewrite (truediv_plain _ "workflows" eq_refl).
  - by rewrite (truediv_plain _ "workflows" eq_refl).
Qed.

Lemma remote_path_absolute_uuid_witness :
  let unix := mkClient (Some 1) "daint" "" "" "" "" "" "/home/u" posix 5 in
  let code1 := mkCode (Some 1) "a" 1 "" [] in
  let calc1 := mkCalcJob (Some 1) "" "/etc/cron.d" 1 [] [] [] in
  let db := mkStore {[ 1 := unix ]} {[ 1 := code1 ]} {[ 1 := calc1 ]} ∅ ∅ in
  pathlib.str <$> remote_path db calc1 = Some "/etc/cron.d".
Proof.
  intros unix code1 calc1 db.
  rewrite (remote_path_absolute_uuid db calc1 code1 unix "etc/cron.d"
             eq_refl eq_refl eq_refl eq_refl).
  reflexivity.
Defined.

Lemma append_assoc (a b c : string) : (a +:+ b) +:+ c = a +:+ (b +:+ c).
Proof.
  induction a as [|x a IH]; [done|].
  change (String x ((a +:+ b) +:+ c) = String x (a +:+ (b +:+ c))).
  by rewrite IH.
Qed.

Lemma nonempty_append (a b : string) :
  pathlib.nonempty (a +:+ b) = (pathlib.nonempty a || pathlib.nonempty b)%bool.
Proof. by destruct a. Qed.

Lemma join_app_two (sep : ascii) (l : list string) (a b : string) :
  l <> [] ->
  pathlib.join sep (l ++ [a; b])%list
  = pathlib.join sep l +:+ String sep (a +:+ String sep b).
Proof.
  induction l as [|x l IH]; [done|]. intros _.
  destruct l as [|y l].
  - reflexivity.
  - change (pathlib.join sep ((x :: y :: l) ++ [a; b])%list)
      with (x +:+ String sep (pathlib.join sep ((y :: l) ++ [a; b])%list)).
    rewrite IH by done.
    change (pathlib.join sep (x :: y :: l))
      with (x +:+ String sep (pathlib.join sep (y :: l))).
    rewrite append_assoc. reflexivity.
Qed.

Lemma join_nonempty (sep : ascii) (l : list string) :
  l <> [] -> Forall (fun x => pathlib.kept x = true) l ->
  pathlib.nonempty (pathlib.join sep l) = true.
Proof.
  destruct l as [|x l]; [done|]. intros _ Hall.
  apply Forall_cons in Hall as [Hx _].
  unfold pathlib.kept in Hx. apply andb_prop in Hx as [Hx _].
  destruct l; [done|].
  change (pathlib.join sep (x :: s :: l))
    with (x +:+ String sep (pathlib.join sep (s :: l))).
  by rewrite nonempty_append, Hx.
Qed.

(** What parsing produces: an anchor, when there is one, as the first
    part, followed by components none of which is empty or ["."]. *)
Lemma parse_parts_shape (f : pathlib.Flavour) (s : string) :
  exists drv root names,
    pathlib.parse_parts f s
    = (drv, root,
       if (pathlib.nonempty drv || pathlib.nonempty root)%bool
       then (drv +:+ root) :: names else names)
    /\ Forall (fun x => pathlib.kept x = true) names.
Proof.
  unfold pathlib.parse_parts.
  destruct (pathlib.nonempty s).
  - simpl.
    destruct (pathlib.splitroot f _) as [[drv root] rel].
    exists drv, root, (List.filter pathlib.kept (pathlib.split (pathlib.sep f) rel)).
    split; [by destruct (pathlib.nonempty drv || pathlib.nonempty root)%bool|].
    apply Forall_forall. intros x Hx. apply list_elem_of_In in Hx.
    by apply filter_In in Hx as [_ Hx].
  - simpl. exists EmptyString, EmptyString, []. split; [done|]. constructor.
Qed.

Lemma work_path_shape (client : Client) :
  Forall (fun x => pathlib.kept x = true) (path_names (work_path client))
  /\ ((pathlib.nonempty (pathlib._drv (work_path client))
       || pathlib.nonempty (pathlib._root (work_path client)))%bool = true ->
      pathlib._parts (work_path client)
      = (pathlib._drv (work_path client) +:+ pathlib._root (work_path client))
          :: path_names (work_path client)).
Proof.
  unfold work_path, pathlib.PurePosixPath, pathlib.PureWindowsPath,
    pathlib._from_parts, path_names.
  destruct (bool_decide (fsystem client = posix));
    match goal with
    | |- context [pathlib.parse_parts ?f ?s] =>
        destruct (parse_parts_shape f s) as (drv & root & names & -> & Hall)
    end; simpl;
    destruct (pathlib.nonempty drv || pathlib.nonempty root)%bool; simpl;
    split; try done.
Qed.

Lemma nonempty_false (s : string) : pathlib.nonempty s = false -> s = EmptyString.
Proof. by destruct s. Qed.

Lemma str_with_two_more (p : pathlib.PurePath) (a b : string) :
  Forall (fun x => pathlib.kept x = true) (path_names p) ->
  ((pathlib.nonempty (pathlib._drv p) || pathlib.nonempty (pathlib._root p))%bool
   = true ->
   exists x, pathlib._parts p = x :: path_names p) ->
  pathlib.nonempty a = true ->
  let q := pathlib.mkPurePath (pathlib._flavour p) (pathlib._drv p)
             (pathlib._root p) (pathlib._parts p ++ [a; b])%list in
  (path_names p <> [] ->
   pathlib.str q
   = pathlib.str p +:+ String (path_sep p) (a +:+ String (path_sep p) b))
  /\ (path_names p = [] ->
      pathlib.str q
      = pathlib._drv p +:+ pathlib._root p +:+ a +:+ String (path_sep p) b).
Proof.
  destruct p as [k drv root parts].
  unfold path_names, path_sep, pathlib.str. simpl.
  set (sep := pathlib.sep (pathlib.flavour_of k)).
  intros Hall Hanch Ha.
  destruct (pathlib.nonempty drv || pathlib.nonempty root)%bool eqn:Hanchored.
  - destruct (Hanch eq_refl) as [x Hparts]. simpl in Hparts.
    assert (Hnames : parts = x :: List.tl parts) by done.
    set (names := List.tl parts) in *. clearbody names. subst parts.
    simpl List.tl.
    assert (Hne : forall X, pathlib.nonempty (drv +:+ root +:+ X) = true).
    { intros X. rewrite !nonempty_append.
      apply orb_prop in Hanchored as [->| ->]; [done|]. by rewrite orb_true_r. }
    rewrite !Hne. split.
    + intros Hn. rewrite (join_app_two sep names a b Hn).
      by rewrite !append_assoc.
    + intros ->. reflexivity.
  - apply orb_false_elim in Hanchored as [Hd Hr].
    apply nonempty_false in Hd, Hr. subst drv root. split.
    + intros Hn. rewrite (join_app_two sep parts a b Hn).
      rewrite (join_nonempty sep parts Hn Hall).
      by rewrite nonempty_append, (join_nonempty sep parts Hn Hall).
    + intros ->. simpl.
      change (pathlib.join sep [a; b]) with (a +:+ String sep b).
      by rewrite nonempty_append, Ha.
Qed.

(** How the remote folder prints, for every working directory. With a
    plain [uuid]: when the work path has a component after its anchor,
    the remote path prints as the work path, the separator of the file
    system, ["workflows"], the separator and the [uuid]; when it has none
    (the working directory is empty, only a root, or only a drive), it
    prints as drive and root directly followed by ["workflows"], the
    separator and the [uuid], so an empty working directory gives the
    relative path [workflows/<uuid>]. *)
Theorem remote_path_printed
    (db : Store) (self : CalcJob) (code : Code) (client : Client) :
  codes db !! code_pk self = Some code ->
  clients db !! client_pk code = Some client ->
  plain (uuid self) = true ->
  let wp := work_path client in
  exists p,
    remote_path db self = Some p
    /\ (path_names wp <> [] ->
        pathlib.str p
        = pathlib.str wp
          +:+ String (path_sep wp)
                ("workflows" +:+ String (path_sep wp) (uuid self)))
    /\ (path_names wp = [] ->
        pathlib.str p
        = pathlib._drv wp +:+ pathlib._root wp
          +:+ "workflows" +:+ String (path_sep wp) (uuid self))
    /\ (work_dir client = EmptyString ->
        pathlib.str p = "workflows" +:+ String (path_sep wp) (uuid self)).
Proof.
  intros Hcode Hclient Hplain wp.
  exists (wp // "workflows" // uuid self).
  split; [unfold remote_path; rewrite Hcode; simpl; by rewrite Hclient|].
  rewrite (truediv_plain _ (uuid self) Hplain).
  rewrite (truediv_plain _ "workflows" eq_refl). simpl.
  rewrite <- app_assoc. simpl.
  destruct (work_path_shape client) as [Hall Hanch]. fold wp in Hall, Hanch.
  destruct (str_with_two_more wp "workflows" (uuid self) Hall) as [H1 H2];
    [intros Ha; rewrite (Hanch Ha); eauto|done|].
  split; [exact H1|]. split; [exact H2|].
  intros Hwd.
  assert (Hwp : wp = pathlib.mkPurePath (pathlib._flavour wp)
                       EmptyString EmptyString []).
  { unfold wp, work_path. rewrite Hwd. by destruct (bool_decide _). }
  rewrite H2; [|by rewrite Hwp].
  by rewrite Hwp.
Qed.

Lemma remote_path_printed_witness :
  let win := mkClient (Some 1) "hpc" "" "" "" "" "" "D:" windows 5 in
  let code1 := mkCode (Some 1) "a" 1 "" [] in
  let calc1 := mkCalcJob (Some 1) "" "abc-123" 1 [] [] [] in
  let db := mkStore {[ 1 := win ]} {[ 1 := code1 ]} {[ 1 := calc1 ]} ∅ ∅ in
  pathlib.str <$> remote_path db calc1 = Some "D:workflows\abc-123".
Proof.
  intros win code1 calc1 db.
  destruct (remote_path_printed db calc1 code1 win eq_refl eq_refl eq_refl)
    as (p & -> & _ & Hnone & _).
  simpl. f_equal. apply Hnone. reflexivity.
Defined.

(** ** Running out of names *)

(** The default label is drawn once and not drawn again: when every name
    of [NAMES] is the label of a stored client, storing a client with no
    label given is refused by the unique constraint whatever the
    generator draws, and the database is as before; likewise for a code
    with no label given when every name labels a stored code of its
    client. *)
Theorem default_label_exhausted
    (rng : Type) (_randbelow : nat -> rng -> nat * rng)
    (_randbelow_lt : forall n g, (0 < n)%nat -> (fst (_randbelow n g) < n)%nat)
    (db : Store) :
  (forall new g,
     NewClient.label new = None ->
     forallb (client_label_taken db) NAMES = true ->
     exists g', add_client rng _randbelow new db g
                = (inl (IntegrityError UniqueConstraint), db, g'))
  /\ (forall new g,
        NewCode.label new = None ->
        forallb (code_label_taken db (NewCode.client_pk new)) NAMES = true ->
        exists g', add_code rng _randbelow new db g
                   = (inl (IntegrityError UniqueConstraint), db, g')).
Proof.
  split.
  - intros new g Hnone Hall. unfold add_client. rewrite Hnone.
    destruct (label_or_default_unset rng _randbelow _randbelow_lt g)
      as (l & Hl & Hin).
    destruct (label_or_default rng _randbelow None g) as [ol g1].
    simpl in Hl. subst ol.
    rewrite forallb_forall in Hall.
    rewrite (Hall l) by by apply list_elem_of_In. eauto.
  - intros new g Hnone Hall. unfold add_code. rewrite Hnone.
    destruct (label_or_default_unset rng _randbelow _randbelow_lt g)
      as (l & Hl & Hin).
    destruct (label_or_default rng _randbelow None g) as [ol g1].
    simpl in Hl. subst ol.
    rewrite forallb_forall in Hall.
    rewrite (Hall l) by by apply list_elem_of_In. eauto.
Qed.

Lemma default_label_exhausted_witness :
  let row l := mkClient None l "" "" "" "" "" "/home/u" posix 5 in
  let db := mkStore
              (list_to_map (zip (Z.of_nat <$> seq 1 50) (row <$> NAMES)))
              ∅ ∅ ∅ ∅ in
  forallb (client_label_taken db) NAMES = true
  /\ exists g', add_client Sample.rng Sample._randbelow
                  (Sample.a_client None posix "/home/u") db 4%nat
                = (inl (IntegrityError UniqueConstraint), db, g').
Proof.
  intros row db.
  assert (Hall : forallb (client_label_taken db) NAMES = true)
    by (vm_compute; reflexivity).
  split; [exact Hall|].
  apply (proj1 (default_label_exhausted Sample.rng Sample._randbelow
                  sample_randbelow_lt db)
           (Sample.a_client None posix "/home/u") 4%nat eq_refl Hall).
Defined.

(** The pool holds forty-nine different names, and labels are unique: in
    a database reached through the session's writes, at most forty-nine
    clients carry a label from [NAMES]. *)
Theorem at_most_49_pool_labels
    (rng : Type) (_randbelow : nat -> rng -> nat * rng)
    (uuid4 : rng -> string * rng) (db : Store) :
  reachable rng _randbelow uuid4 db ->
  (size (filter (fun kv => client_label kv.2 ∈ NAMES) (clients db)) <= 49)%nat.
Proof.
  intros Hreach. apply reachable_wf in Hreach as [_ _ _ _ H5 _].
  set (m := filter (fun kv => client_label kv.2 ∈ NAMES) (clients db)).
  set (labels := (fun kv : Z * Client => client_label kv.2) <$> map_to_list m).
  assert (Hnodup : NoDup labels).
  { apply NoDup_fmap_2_strong; [|apply NoDup_map_to_list].
    intros [k1 c1] [k2 c2] H1 H2 Hl. simpl in Hl.
    apply elem_of_map_to_list in H1, H2.
    apply map_lookup_filter_Some in H1 as [H1 _].
    apply map_lookup_filter_Some in H2 as [H2 _].
    pose proof (H5 k1 k2 c1 c2 H1 H2 Hl) as ->. congruence. }
  assert (Hsub : (list_to_set labels : gset string) ⊆ list_to_set NAMES).
  { intros l. rewrite !elem_of_list_to_set. unfold labels.
    intros ([k c] & -> & Hin)%list_elem_of_fmap.
    apply elem_of_map_to_list in Hin.
    by apply map_lookup_filter_Some in Hin as [_ Hin]. }
  apply subseteq_size in Hsub.
  rewrite size_list_to_set in Hsub by done.
  unfold labels in Hsub. rewrite length_fmap, length_map_to_list in Hsub.
  assert (Hpool : size (list_to_set NAMES : gset string) = 49%nat)
    by (vm_compute; reflexivity).
  fold m in Hsub. lia.
Qed.

Lemma at_most_49_pool_labels_witness :
  let db := (add_client Sample.rng Sample._randbelow
               (Sample.a_client None posix "/home/u") empty_store 7%nat).1.2 in
  reachable Sample.rng Sample._randbelow Sample.uuid4 db
  /\ (size (filter (fun kv => client_label kv.2 ∈ NAMES) (clients db)) <= 49)%nat.
Proof.
  intros db.
  assert (Hreach : reachable Sample.rng Sample._randbelow Sample.uuid4 db).
  { apply reach_add_client, reach_empty. }
  split; [exact Hreach|].
  exact (at_most_49_pool_labels Sample.rng Sample._randbelow Sample.uuid4
           db Hreach).
Defined.

(** ** Laws of deletion *)


Lemma filter_ne_all {A : Type} (f : A -> Z) (k : Z) (m : gmap Z A) :
  (forall j x, m !! j = Some x -> f x <> k) ->
  filter (fun kv => f kv.2 <> k) m = m.
Proof.
  intros H. apply map_eq. intros j. apply option_eq. intros x.
  rewrite map_lookup_filter_Some. simpl. split; [by intros [? _]|].
  intros Hx. split; [done|]. by eapply H.
Qed.






Lemma outputs_stored_filtered
    (rng : Type) (g : rng) (k : Z) (outputs : list NewOutput.t) (db : Store) :
  filter (fun kv => creator_pk kv.2 <> k)
    (data (foldl (fun d o =>
                    (add_datanode rng
                       (NewDataNode.mk (NewOutput.attributes o) k) d g).1.2)
                 db outputs))
  = filter (fun kv => creator_pk kv.2 <> k) (data db).
Proof.
  revert db. induction outputs as [|o outputs IH]; intros db; [done|].
  cbn [foldl]. rewrite IH. unfold add_datanode.
  case_bool_decide; [done|]. simpl.
  apply map_filter_insert_not'; simpl; [tauto|].
  intros y Hy. by rewrite next_pk_fresh in Hy.
Qed.

(** In a database reached through the session's writes: an attempt to
    delete a calcjob that is not stored raises [InvalidRequestError] and
    changes nothing; deleting a calcjob right after it was stored
    succeeds and gives back the database from before, and so does
    deleting a calcjob right after it was stored together with a status
    and outputs passed to its constructor. *)
Theorem delete_calcjob_undoes_add
    (rng : Type) (_randbelow : nat -> rng -> nat * rng)
    (uuid4 : rng -> string * rng) (db : Store) :
  reachable rng _randbelow uuid4 db ->
  (forall k, calcjobs db !! k = None ->
             delete_calcjob k db = (inl InvalidRequestError, db))
  /\ (forall new g k db' g',
        add_calcjob rng uuid4 new db g = (inr k, db', g') ->
        delete_calcjob k db' = (inr tt, db))
  /\ (forall new status outputs g k db' g',
        add_calcjob_with rng uuid4 new status outputs db g
        = (inr k, db', g') ->
        delete_calcjob k db' = (inr tt, db)).
Proof.
  intros Hreach. apply reachable_wf in Hreach as Hwf.
  pose proof (status_of_fresh db Hwf) as Hfresh.
  destruct Hwf as [_ _ H3 H4 _ _].
  pose proof (next_pk_fresh (calcjobs db)) as Hk.
  set (k := next_pk (calcjobs db)) in *.
  assert (Hst : filter (fun kv => calcjob_pk kv.2 <> k) (statuses db)
                = statuses db).
  { apply (filter_ne_all calcjob_pk). intros j p Hp Heq.
    destruct (H3 j p Hp) as [c Hc]. congruence. }
  assert (Hda : filter (fun kv => creator_pk kv.2 <> k) (data db) = data db).
  { apply (filter_ne_all creator_pk). intros j d Hd Heq.
    destruct (H4 j d Hd) as [c Hc]. congruence. }
  assert (Hwith : forall new status outputs g db' g',
            add_calcjob_with rng uuid4 new status outputs db g
            = (inr k, db', g') ->
            delete_calcjob k db' = (inr tt, db)).
  { intros new status outputs g db' g' Hadd.
    unfold add_calcjob_with in Hadd.
    destruct (add_calcjob rng uuid4 new db g) as [[[e|k1] db1] g1] eqn:Hcj;
      [discriminate|].
    injection Hadd as -> <- <-.
    apply add_calcjob_inr in Hcj as (_ & row & ->).
    fold k.
    set (db2 := match status with
                | Some s => _
                | None => _
                end).
    assert (Hdb2 : clients db2 = clients db /\ codes db2 = codes db
              /\ calcjobs db2 = <[k := row]> (calcjobs db)
              /\ data db2 = data db
              /\ filter (fun kv => calcjob_pk kv.2 <> k) (statuses db2)
                 = statuses db
              /\ (size (filter (fun kv => calcjob_pk kv.2 = k) (statuses db2))
                  <= 1)%nat).
    { subst db2. destruct status as [s|].
      - unfold add_processing. simpl.
        rewrite bool_decide_eq_false_2 by by rewrite lookup_insert_eq.
        simpl. do 4 (split; [done|]). split.
        + rewrite map_filter_insert_not'; [exact Hst|simpl; tauto|].
          intros y Hy. by rewrite next_pk_fresh in Hy.
        + rewrite map_filter_insert_True by done.
          fold (status_of db k). rewrite Hfresh, insert_empty.
          rewrite map_size_singleton. lia.
      - simpl. do 4 (split; [done|]). split; [done|].
        fold (status_of db k). rewrite Hfresh, map_size_empty. lia. }
    destruct Hdb2 as (Hcl & Hco & Hca & Hdat & Hfst & Hsz).
    match goal with
    | |- context [foldl ?f db2 outputs] =>
        pose proof (outputs_stored_frame rng g1 k outputs db2)
          as (Ost & Oca & Oco & Ocl);
        pose proof (outputs_stored_filtered rng g1 k outputs db2) as Oda;
        set (db3 := foldl f db2 outputs) in *
    end.
    cbv zeta in Ost, Oca, Oco, Ocl. fold db3 in Ost, Oca, Oco, Ocl.
    unfold delete_calcjob. rewrite Oca, Hca, lookup_insert_eq.
    unfold status_of. rewrite Ost. rewrite decide_True by done.
    f_equal. unfold without_calcjob.
    rewrite Ocl, Oco, Oca, Ost, Oda, Hcl, Hco, Hca, Hdat, Hfst, Hda.
    rewrite delete_insert_eq, delete_id by done.
    by destruct db. }
  split; [|split].
  - intros j Hj. unfold delete_calcjob. by rewrite Hj.
  - intros new g k' db' g' Hadd.
    assert (k' = k) as -> by by apply add_calcjob_inr in Hadd as (-> & _).
    apply (Hwith new None [] g db' g').
    unfold add_calcjob_with. by rewrite Hadd.
  - intros new status outputs g k' db' g' Hadd.
    assert (k' = k) as ->.
    { unfold add_calcjob_with in Hadd.
      destruct (add_calcjob rng uuid4 new db g) as [[[e|k1] db1] g1] eqn:Hcj;
        [discriminate|].
      injection Hadd as <- _ _. by apply add_calcjob_inr in Hcj as (-> & _). }
    by eapply Hwith.
Qed.

Lemma delete_calcjob_undoes_add_witness :
  let db1 := (add_client Sample.rng Sample._randbelow
                (Sample.a_client (Some "daint") posix "/home/u")
                empty_store 0%nat).1.2 in
  let db2 := (add_code Sample.rng Sample._randbelow
                (Sample.a_code (Some "pw.x") 1) db1 0%nat).1.2 in
  let r := add_calcjob_with Sample.rng Sample.uuid4 (Sample.a_calcjob None 1)
             (Some (NewStatus.mk None None None))
             [NewOutput.mk None; NewOutput.mk None] db2 0%nat in
  reachable Sample.rng Sample._randbelow Sample.uuid4 db2
  /\ r.1.1 = inr 1
  /\ size (statuses r.1.2) = 1%nat
  /\ size (data r.1.2) = 2%nat
  /\ delete_calcjob 1 r.1.2 = (inr tt, db2).
Proof.
  intros db1 db2 r.
  assert (Hreach : reachable Sample.rng Sample._randbelow Sample.uuid4 db2).
  { apply reach_add_code, reach_add_client, reach_empty. }
  split; [exact Hreach|]. split; [vm_compute; reflexivity|].
  split; [vm_compute; reflexivity|]. split; [vm_compute; reflexivity|].
  apply (proj2 (proj2 (delete_calcjob_undoes_add Sample.rng Sample._randbelow
                         Sample.uuid4 db2 Hreach))
           (Sample.a_calcjob None 1) (Some (NewStatus.mk None None None))
           [NewOutput.mk None; NewOutput.mk None] 0%nat 1 r.1.2 r.2).
  vm_compute. reflexivity.
Defined.

(** ** Statuses and outputs of a calcjob *)

Lemma size_filter_insert {A : Type} (P : Z * A -> Prop)
    `{forall kv, Decision (P kv)} (m : gmap Z A) (k : Z) (x : A) :
  m !! k = None -> P (k, x) ->
  size (filter P (<[k := x]> m)) = S (size (filter P m)).
Proof.
  intros Hk HP. rewrite map_filter_insert_True by done.
  apply map_size_insert_None. apply map_lookup_filter_None. by left.
Qed.

(** Storing a status checks only that its calcjob is stored. If it is
    not, the write is refused by the foreign key and the database is as
    before. Otherwise the status is stored under a key greater than every
    key in use, with step [created] where none was given and the job id
    and exception as given; the calcjob then has one status more than
    before, whether or not it already had one, and the statuses of every
    other calcjob are as before. *)
Theorem add_processing_outcome
    (rng : Type) (new : NewProcessing.t) (db : Store) (g : rng) :
  (calcjobs db !! NewProcessing.calcjob_pk new = None
   /\ add_processing rng new db g
      = (inl (IntegrityError ForeignKeyConstraint), db, g))
  \/ (is_Some (calcjobs db !! NewProcessing.calcjob_pk new)
      /\ exists k db' row,
           add_processing rng new db g = (inr k, db', g)
           /\ (forall j, is_Some (statuses db !! j) -> j < k)
           /\ statuses db' !! k = Some row
           /\ processing_pk_ row = Some k
           /\ calcjob_pk row = NewProcessing.calcjob_pk new
           /\ step row = default created (NewProcessing.step new)
           /\ job_id row = NewProcessing.job_id new
           /\ exception row = NewProcessing.exception new
           /\ size (status_of db' (NewProcessing.calcjob_pk new))
              = S (size (status_of db (NewProcessing.calcjob_pk new)))
           /\ (forall c, c <> NewProcessing.calcjob_pk new ->
                 status_of db' c = status_of db c)
           /\ (forall j, j <> k -> statuses db' !! j = statuses db !! j)
           /\ clients db' = clients db /\ codes db' = codes db
           /\ calcjobs db' = calcjobs db /\ data db' = data db).
Proof.
  unfold add_processing. case_bool_decide as Hfk; [by left|]. right.
  split; [by destruct (calcjobs db !! NewProcessing.calcjob_pk new); eauto|].
  do 3 eexists. split; [reflexivity|]. simpl.
  split; [apply next_pk_above|].
  split; [apply lookup_insert_eq|].
  do 5 (split; [reflexivity|]).
  split.
  { unfold status_of. simpl.
    by apply (size_filter_insert
                (fun kv => calcjob_pk kv.2 = NewProcessing.calcjob_pk new));
      [apply next_pk_fresh|]. }
  split.
  { intros c Hc. unfold status_of. simpl.
    apply map_filter_insert_not'; simpl; [congruence|].
    intros y Hy. by rewrite next_pk_fresh in Hy. }
  split; [intros j Hj; by rewrite lookup_insert_ne|done].
Qed.

(** Storing an output checks only that its creator is stored. If it is
    not, the write is refused by the foreign key and the database is as
    before. Otherwise the output is stored under a key greater than every
    key in use, with empty attributes where none were given; the creator
    then has one output more than before and the outputs of every other
    calcjob are as before. *)
Theorem add_datanode_outcome
    (rng : Type) (new : NewDataNode.t) (db : Store) (g : rng) :
  (calcjobs db !! NewDataNode.creator_pk new = None
   /\ add_datanode rng new db g
      = (inl (IntegrityError ForeignKeyConstraint), db, g))
  \/ (is_Some (calcjobs db !! NewDataNode.creator_pk new)
      /\ exists k db' row,
           add_datanode rng new db g = (inr k, db', g)
           /\ (forall j, is_Some (data db !! j) -> j < k)
           /\ data db' !! k = Some row
           /\ datanode_pk_ row = Some k
           /\ creator_pk row = NewDataNode.creator_pk new
           /\ attributes row = default [] (NewDataNode.attributes new)
           /\ size (outputs_of db' (NewDataNode.creator_pk new))
              = S (size (outputs_of db (NewDataNode.creator_pk new)))
           /\ (forall c, c <> NewDataNode.creator_pk new ->
                 outputs_of db' c = outputs_of db c)
           /\ (forall j, j <> k -> data db' !! j = data db !! j)
           /\ clients db' = clients db /\ codes db' = codes db
           /\ calcjobs db' = calcjobs db /\ statuses db' = statuses db).
Proof.
  unfold add_datanode. case_bool_decide as Hfk; [by left|]. right.
  split; [by destruct (calcjobs db !! NewDataNode.creator_pk new); eauto|].
  do 3 eexists. split; [reflexivity|]. simpl.
  split; [apply next_pk_above|].
  split; [apply lookup_insert_eq|].
  do 3 (split; [reflexivity|]).
  split.
  { unfold outputs_of. simpl.
    by apply (size_filter_insert
                (fun kv => creator_pk kv.2 = NewDataNode.creator_pk new));
      [apply next_pk_fresh|]. }
  split.
  { intros c Hc. unfold outputs_of. simpl.
    apply map_filter_insert_not'; simpl; [congruence|].
    intros y Hy. by rewrite next_pk_fresh in Hy. }
  split; [intros j Hj; by rewrite lookup_insert_ne|done].
Qed.

(** ** Stored rows and their keys *)

Lemma keyed_insert {A : Type} (f : A -> option Z) (m : gmap Z A) (k : Z) (x : A) :
  f x = Some k ->
  (forall j y, m !! j = Some y -> f y = Some j) ->
  forall j y, <[k := x]> m !! j = Some y -> f y = Some j.
Proof.
  intros Hx Hm j y. rewrite lookup_insert_Some.
  intros [[<- <-]|[_ Hy]]; [done|by eapply Hm].
Qed.

Lemma reachable_keyed
    (rng : Type) (_randbelow : nat -> rng -> nat * rng)
    (uuid4 : rng -> string * rng) (db : Store) :
  reachable rng _randbelow uuid4 db -> keyed db.
Proof.
  induction 1 as [|new db g _ IH|new db g _ IH|new db g _ IH|new db g _ IH
                 |new db g _ IH|k db _ IH|k db _ IH|k db _ IH|f k db Hf _ IH].
  - split; simpl; intros *; by rewrite lookup_empty.
  - unfold add_client.
    destruct (label_or_default _ _ _ _) as [[l|] g1]; [|done].
    destruct (client_label_taken db l); [done|].
    destruct IH as [H1 H2 H3 H4]. split; simpl; try done.
    by apply (keyed_insert client_pk_).
  - unfold add_code.
    destruct (label_or_default _ _ _ _) as [[l|] g1]; [|done].
    destruct (code_label_taken db _ l); [done|].
    case_bool_decide; [done|].
    destruct IH as [H1 H2 H3 H4]. split; simpl; try done.
    by apply (keyed_insert code_pk_).
  - unfold add_calcjob.
    destruct (match NewCalcJob.uuid new with
              | Some u => (u, g)
              | None => uuid4 g
              end) as [u g1].
    case_bool_decide; [done|].
    destruct IH as [H1 H2 H3 H4]. split; simpl; try done.
    by apply (keyed_insert calcjob_pk_).
  - unfold add_processing. case_bool_decide; [done|].
    destruct IH as [H1 H2 H3 H4]. by split.
  - unfold add_datanode. case_bool_decide; [done|].
    destruct IH as [H1 H2 H3 H4]. split; simpl; try done.
    by apply (keyed_insert datanode_pk_).
  - unfold delete_calcjob.
    destruct (calcjobs db !! k) as [c0|]; [|done]. case_decide; [|done].
    destruct IH as [H1 H2 H3 H4]. split; simpl; try done.
    + intros j c [_ Hc]%lookup_delete_Some. by apply H3.
    + intros j d [Hd _]%map_lookup_filter_Some. by apply H4.
  - destruct IH as [H1 H2 H3 H4]. by split.
  - destruct IH as [H1 H2 H3 H4]. split; simpl; try done.
    intros j d [_ Hd]%lookup_delete_Some. by apply H4.
  - destruct IH as [H1 H2 H3 H4]. by split.
Qed.

(** In a database reached through the session's writes, a stored client,
    code, calcjob or output carries the key it is stored under as its
    primary key; so two stored rows of one of these tables compare equal
    exactly when they are the same row, and a stored row prints with its
    key. *)
Theorem stored_pk_is_key
    (rng : Type) (_randbelow : nat -> rng -> nat * rng)
    (uuid4 : rng -> string * rng) (db : Store) :
  reachable rng _randbelow uuid4 db ->
  (forall k c, clients db !! k = Some c -> pk (EClient c) = Some k)
  /\ (forall k c, codes db !! k = Some c -> pk (ECode c) = Some k)
  /\ (forall k c, calcjobs db !! k = Some c -> pk (ECalcJob c) = Some k)
  /\ (forall k d, data db !! k = Some d -> pk (EDataNode d) = Some k)
  /\ (forall k1 k2 c1 c2,
        clients db !! k1 = Some c1 -> clients db !! k2 = Some c2 ->
        (__eq__ (EClient c1) (Obj (EClient c2)) = true <-> k1 = k2))
  /\ (forall k1 k2 c1 c2,
        codes db !! k1 = Some c1 -> codes db !! k2 = Some c2 ->
        (__eq__ (ECode c1) (Obj (ECode c2)) = true <-> k1 = k2))
  /\ (forall k1 k2 c1 c2,
        calcjobs db !! k1 = Some c1 -> calcjobs db !! k2 = Some c2 ->
        (__eq__ (ECalcJob c1) (Obj (ECalcJob c2)) = true <-> k1 = k2))
  /\ (forall k1 k2 d1 d2,
        data db !! k1 = Some d1 -> data db !! k2 = Some d2 ->
        (__eq__ (EDataNode d1) (Obj (EDataNode d2)) = true <-> k1 = k2))
  /\ (forall k c, calcjobs db !! k = Some c ->
        __str__ (ECalcJob c) = "CalcJob(" +:+ pretty k +:+ ")").
Proof.
  intros Hreach.
  apply reachable_keyed in Hreach as [H1 H2 H3 H4].
  do 4 (split; [done|]).
  assert (Heq : forall e1 e2 k1 k2,
            class_of e1 = class_of e2 -> pk e1 = Some k1 -> pk e2 = Some k2 ->
            (__eq__ e1 (Obj e2) = true <-> k1 = k2)).
  { intros e1 e2 k1 k2 Hc Hk1 Hk2. rewrite eq_Obj_iff, Hk1, Hk2.
    split; [by intros [_ [= ->]]|by intros ->]. }
  split; [intros k1 k2 c1 c2 Hc1 Hc2; apply Heq; simpl; eauto|].
  split; [intros k1 k2 c1 c2 Hc1 Hc2; apply Heq; simpl; eauto|].
  split; [intros k1 k2 c1 c2 Hc1 Hc2; apply Heq; simpl; eauto|].
  split; [intros k1 k2 c1 c2 Hc1 Hc2; apply Heq; simpl; eauto|].
  intros k c Hc. unfold __str__, Base__str__. simpl.
  by rewrite (H3 k c Hc).
Qed.

Lemma stored_pk_is_key_witness :
  let db1 := (add_client Sample.rng Sample._randbelow
                (Sample.a_client (Some "daint") posix "/home/u")
                empty_store 0%nat).1.2 in
  let db2 := (add_client Sample.rng Sample._randbelow
                (Sample.a_client (Some "eiger") posix "/scratch/u")
                db1 0%nat).1.2 in
  reachable Sample.rng Sample._randbelow Sample.uuid4 db2
  /\ exists c1 c2, clients db2 !! 1 = Some c1 /\ clients db2 !! 2 = Some c2
       /\ __eq__ (EClient c1) (Obj (EClient c2)) <> true.
Proof.
  intros db1 db2.
  assert (Hreach : reachable Sample.rng Sample._randbelow Sample.uuid4 db2).
  { apply reach_add_client, reach_add_client, reach_empty. }
  split; [exact Hreach|].
  pose (c1 := mkClient (Some 1) "daint" "https://firecrest.example.org" "id"
                "https://auth.example.org/token" "secret" "daint" "/home/u"
                posix 5).
  pose (c2 := mkClient (Some 2) "eiger" "https://firecrest.example.org" "id"
                "https://auth.example.org/token" "secret" "daint" "/scratch/u"
                posix 5).
  assert (Hc1 : clients db2 !! 1 = Some c1) by (vm_compute; reflexivity).
  assert (Hc2 : clients db2 !! 2 = Some c2) by (vm_compute; reflexivity).
  exists c1, c2. split; [exact Hc1|]. split; [exact Hc2|].
  destruct (stored_pk_is_key Sample.rng Sample._randbelow Sample.uuid4 db2
              Hreach) as (_ & _ & _ & _ & Heq & _).
  intros H. apply (Heq 1 2 c1 c2 Hc1 Hc2) in H. discriminate H.
Defined.
